(** * static/app.js: the browser-side binding layer of the hospital pages

    A shallow embedding of the script: JSON values as JavaScript sees them,
    the part of the document the script touches, the notifier, the two HTTP
    helpers, the form binder, the three table renderers, the four refresh
    routines and the page dispatch, followed by the properties proved of
    them. *)

From stdpp Require Import base gmap list strings pretty.
From Stdlib Require Import ZArith Lia Ascii.

Set Warnings "-register-all".

(** ** JavaScript values

    Values are the ones [JSON.parse] and property reads produce. A number
    is kept as what the script can tell of it: the text [ToString] gives it
    ("12.5", "1e+21", "NaN", ...) and whether it is truthy, which it is
    unless it is 0 or [NaN]. The script does no arithmetic. *)

Record number := Number { digits : string; nonzero : bool }.

Inductive value :=
| VUndefined
| VNull
| VBool (b : bool)
| VNum (n : number)
| VStr (s : string)
| VArr (items : list value)
| VObj (fields : gmap string value).

(** The number of items of an array or of characters of a string. Such a
    count stays far below 10^21, where the text of a number changes to
    exponent notation. *)
Definition count (n : nat) : number := Number (pretty n) (negb (n =? 0)).

(** The double-quote character, for markup literals. *)
Definition dq : string := String (Ascii.ascii_of_nat 34) EmptyString.

(** A line break, for template literals. *)
Definition nl : string := String (Ascii.ascii_of_nat 10) EmptyString.

(** ** Exceptions *)

Inductive error_kind := PlainError | TypeError | SyntaxError.

Record js_error := JsError { kind_of : error_kind; message : string }.

Inductive result (A : Type) :=
| Ok (a : A)
| Throw (e : js_error).
Arguments Ok {A} a.
Arguments Throw {A} e.

Definition result_bind {A B} (r : result A) (k : A -> result B) : result B :=
  match r with
  | Ok a => k a
  | Throw e => Throw e
  end.

(** The error of converting an object that has no usable [toString]. *)
Definition no_primitive : js_error :=
  JsError TypeError "Cannot convert object to primitive value".

(** [Array.prototype.join] with a comma, over the conversions of the
    items made in order: the first that throws ends it. *)
Fixpoint join (texts : list (result string)) : result string :=
  match texts with
  | [] => Ok EmptyString
  | text :: rest =>
      result_bind text (fun item =>
        match rest with
        | [] => Ok item
        | _ => result_bind (join rest)
                 (fun tail => Ok (item +:+ "," +:+ tail))
        end)
  end.

(** [ToString], as a template literal [`${v}`], the [Error] constructor and
    the [textContent] setter apply it. An object parsed from JSON prints as
    [[object Object]] through the inherited [toString], unless it has a key
    [toString] of its own: that value cannot be called, the inherited
    [valueOf] gives back the object, and the conversion throws. An array
    joins the texts of its items with commas, [null] and [undefined] items
    giving nothing, and throws when an item does. *)
Fixpoint to_string (v : value) : result string :=
  match v with
  | VUndefined => Ok "undefined"
  | VNull => Ok "null"
  | VBool true => Ok "true"
  | VBool false => Ok "false"
  | VNum n => Ok (digits n)
  | VStr s => Ok s
  | VArr items =>
      join (List.map (fun item => match item with
                                  | VUndefined | VNull => Ok EmptyString
                                  | _ => to_string item
                                  end) items)
  | VObj fields =>
      match fields !! "toString" with
      | Some _ => Throw no_primitive
      | None => Ok "[object Object]"
      end
  end.

Definition is_empty (s : string) : bool :=
  match s with EmptyString => true | _ => false end.

(** [ToBoolean]: the falsy values are [undefined], [null], [false], the
    numbers 0 and [NaN], and the empty string. *)
Definition truthy (v : value) : bool :=
  match v with
  | VUndefined | VNull => false
  | VBool b => b
  | VNum n => nonzero n
  | VStr s => negb (is_empty s)
  | VArr _ | VObj _ => true
  end.

(** [a || b]. *)
Definition or_else (a b : value) : value := if truthy a then a else b.

(** Reading a property. The receivers [null] and [undefined] throw; an
    object answers with the field or [undefined]; arrays and strings answer
    [length]. Only the property names the script reads are meant, none of
    which is an array index or a method name. *)
Definition get (v : value) (key : string) : result value :=
  match v with
  | VUndefined =>
      Throw (JsError TypeError
        ("Cannot read properties of undefined (reading '" +:+ key +:+ "')"))
  | VNull =>
      Throw (JsError TypeError
        ("Cannot read properties of null (reading '" +:+ key +:+ "')"))
  | VObj fields => Ok (default VUndefined (fields !! key))
  | VArr items =>
      Ok (if String.eqb key "length" then VNum (count (length items))
          else VUndefined)
  | VStr s =>
      Ok (if String.eqb key "length" then VNum (count (String.length s))
          else VUndefined)
  | VBool _ | VNum _ => Ok VUndefined
  end.

(** ** The document

    A [node] is a child of an element: markup handed to [innerHTML] (kept as
    the string the parser receives), a text node, or an element made with
    [createElement]. *)

Inductive node :=
| Markup (html : string)
| Text (s : string)
| Elem (tag : string) (attrs : list (string * string)) (kids : list node).

(** [el.innerHTML = s] and [el.textContent = s] replace all children. *)
Definition set_html (s : string) : list node :=
  if is_empty s then [] else [Markup s].

Definition set_text (s : string) : list node :=
  if is_empty s then [] else [Text s].

(** [el.textContent = v] for a value: [null] and [undefined] give the empty
    string, anything else its text, and a value that cannot be converted
    makes the assignment throw. *)
Definition text_content_of (v : value) : result string :=
  match v with
  | VUndefined | VNull => Ok EmptyString
  | _ => to_string v
  end.

(** A form: the current text of its named controls, and the texts
    [reset()] restores. *)
Record form_state := Form {
  controls : list (string * string);
  defaults : list (string * string)
}.

Inductive routine := Overview | Patients | Appointments | Bills.

Inductive request :=
| Get (url : string)
| Post (url : string) (payload : value).

(** What runs when an in-flight request settles. *)
Inductive continuation :=
| AfterGet (r : routine)
| AfterPost (selector : string) (onSuccess : option routine).

(** The page: the clock in milliseconds, the children of the message host
    (each with the identity of its element, which the removal timer holds),
    the children of the elements found by identifier, the forms found by
    selector, the pending removal timers, the registered intervals and
    submit listeners, the requests in flight and the log of requests sent. *)
Record page := Page {
  clock : N;
  messageHost : option (list (nat * node));
  fresh : nat;
  elements : gmap string (list node);
  forms : gmap string form_state;
  timeouts : list (N * nat);
  intervals : list (routine * N);
  listeners : list (string * string * option routine);
  inflight : list (request * continuation);
  sent : list request
}.

Definition set_messages (h : option (list (nat * node))) (p : page) : page :=
  Page (clock p) h (fresh p) (elements p) (forms p) (timeouts p)
       (intervals p) (listeners p) (inflight p) (sent p).

Definition set_fresh (n : nat) (p : page) : page :=
  Page (clock p) (messageHost p) n (elements p) (forms p) (timeouts p)
       (intervals p) (listeners p) (inflight p) (sent p).

Definition set_elements (e : gmap string (list node)) (p : page) : page :=
  Page (clock p) (messageHost p) (fresh p) e (forms p) (timeouts p)
       (intervals p) (listeners p) (inflight p) (sent p).

Definition set_forms (f : gmap string form_state) (p : page) : page :=
  Page (clock p) (messageHost p) (fresh p) (elements p) f (timeouts p)
       (intervals p) (listeners p) (inflight p) (sent p).

Definition set_timeouts (t : list (N * nat)) (p : page) : page :=
  Page (clock p) (messageHost p) (fresh p) (elements p) (forms p) t
       (intervals p) (listeners p) (inflight p) (sent p).

Definition set_intervals (i : list (routine * N)) (p : page) : page :=
  Page (clock p) (messageHost p) (fresh p) (elements p) (forms p) (timeouts p)
       i (listeners p) (inflight p) (sent p).

Definition set_listeners (l : list (string * string * option routine))
    (p : page) : page :=
  Page (clock p) (messageHost p) (fresh p) (elements p) (forms p) (timeouts p)
       (intervals p) l (inflight p) (sent p).

Definition set_inflight (q : list (request * continuation)) (p : page) : page :=
  Page (clock p) (messageHost p) (fresh p) (elements p) (forms p) (timeouts p)
       (intervals p) (listeners p) q (sent p).

Definition set_sent (s : list request) (p : page) : page :=
  Page (clock p) (messageHost p) (fresh p) (elements p) (forms p) (timeouts p)
       (intervals p) (listeners p) (inflight p) s.

Definition set_clock (t : N) (p : page) : page :=
  Page t (messageHost p) (fresh p) (elements p) (forms p) (timeouts p)
       (intervals p) (listeners p) (inflight p) (sent p).

(** ** Computations on the page that may throw *)

Definition M (A : Type) : Type := page -> result A * page.

Definition ret {A} (a : A) : M A := fun p => (Ok a, p).

Definition bind {A B} (m : M A) (k : A -> M B) : M B :=
  fun p =>
    match m p with
    | (Ok a, p') => k a p'
    | (Throw e, p') => (Throw e, p')
    end.

Definition lift {A} (r : result A) : M A := fun p => (r, p).

Definition modify (f : page -> page) : M unit := fun p => (Ok tt, f p).

Definition read {A} (f : page -> A) : M A := fun p => (Ok (f p), p).

(** [try { m } catch (error) { handler error }] *)
Definition try_catch {A} (m : M A) (handler : js_error -> M A) : M A :=
  fun p =>
    match m p with
    | (Ok a, p') => (Ok a, p')
    | (Throw e, p') => handler e p'
    end.

#[global] Instance page_ret : MRet M := @ret.
#[global] Instance page_bind : MBind M := fun A B k m => bind m k.

(** The page a computation leaves behind. *)
Definition exec {A} (m : M A) (p : page) : page := snd (m p).

Fixpoint for_each {A} (f : A -> M unit) (l : list A) : M unit :=
  match l with
  | [] => ret tt
  | x :: rest => f x;; for_each f rest
  end.

#[global] Instance result_ret : MRet result := @Ok.
#[global] Instance result_mbind : MBind result :=
  fun A B k r => result_bind r k.

(** ** Document primitives *)

Definition getElementById (id : string) : M (option (list node)) :=
  read (fun p => elements p !! id).

(** [el.innerHTML = s], for the element with identifier [id]. *)
Definition set_innerHTML (id s : string) : M unit :=
  modify (fun p => set_elements (<[id := set_html s]> (elements p)) p).

(** [el.textContent = v]. *)
Definition set_textContent (id : string) (v : value) : M unit :=
  text ← lift (text_content_of v);
  modify (fun p => set_elements (<[id := set_text text]> (elements p)) p).

(** [el.appendChild(child)]. *)
Definition appendChild (id : string) (child : node) : M unit :=
  modify (fun p =>
    set_elements (alter (fun kids => kids ++ [child]) id (elements p)) p).

(** [items.forEach(f)]: only an array has the method. *)
Definition forEach (name : string) (items : value) (f : value -> M unit)
    : M unit :=
  match items with
  | VArr l => for_each f l
  | _ => lift (Throw (JsError TypeError (name +:+ ".forEach is not a function")))
  end.

(** ** The notifier (lines 5-16) *)

(** The display duration of a message, in milliseconds. *)
Definition display_ms : N := 4000.

(** Every caller passes [kind], so its default value is never used. The
    identity of the created [div] is the next unused one; the timer keeps
    it to remove that very element. *)
Definition showMessage (text kind : string) : M unit :=
  host ← read messageHost;
  match host with
  | None => mret tt
  | Some kids =>
      id ← read fresh;
      modify (set_fresh (S id));;
      let item := Elem "div" [("class", "flash " +:+ kind)] (set_text text) in
      modify (set_messages (Some (kids ++ [(id, item)])));;
      modify (fun p =>
        set_timeouts (timeouts p ++ [((clock p + display_ms)%N, id)]) p)
  end.

(** [item.remove()], run by the timer that holds the item [id]. *)
Definition remove_item (id : nat) (kids : list (nat * node))
    : list (nat * node) :=
  filter (fun child => child.1 ≠ id) kids.

(** The clock moves on by [dt]: every timer that has come due runs. *)
Definition elapse (dt : N) (p : page) : page :=
  let t := (clock p + dt)%N in
  let fired := filter (fun timer => (timer.1 ≤ t)%N) (timeouts p) in
  let pending := filter (fun timer => (t < timer.1)%N) (timeouts p) in
  set_clock t
    (set_timeouts pending
       (set_messages
          ((fun kids => foldr (fun timer => remove_item timer.2) kids fired)
             <$> messageHost p)
          p)).

(** ** The HTTP helpers (lines 18-37)

    [fetch] settles with a response, whose body may or may not be JSON, or
    rejects when the transport fails. The network is taken as the answer it
    gives to each request. *)

Inductive body :=
| Malformed (why : string)
| Json (data : value).

Inductive outcome :=
| NetworkFailure (why : string)
| Response (status : Z) (b : body).

Definition network := request -> outcome.

(** [response.ok]: the status is in the range 200-299. *)
Definition ok (status : Z) : bool := (200 <=? status)%Z && (status <=? 299)%Z.

(** [await fetch(...)] *)
Definition fetch (net : network) (req : request) : result (Z * body) :=
  match net req with
  | NetworkFailure why => Throw (JsError TypeError why)
  | Response status b => Ok (status, b)
  end.

(** [await response.json()] *)
Definition json (b : body) : result value :=
  match b with
  | Malformed why => Throw (JsError SyntaxError why)
  | Json data => Ok data
  end.

Definition request_failed : string := "Request failed".

Definition postJSON (net : network) (url : string) (payload : value)
    : result value :=
  response ← fetch net (Post url payload);
  data ← json response.2;
  if negb (ok response.1) then
    error ← get data "error";
    text ← to_string (or_else error (VStr request_failed));
    Throw (JsError PlainError text)
  else
    Ok data.

Definition getJSON (net : network) (url : string) : result value :=
  response ← fetch net (Get url);
  if negb (ok response.1) then
    Throw (JsError PlainError request_failed)
  else
    json response.2.

(** ** The form binder (lines 39-58) *)

(** [Object.fromEntries(new FormData(form).entries())]: a later control of
    the same name replaces an earlier one. *)
Definition form_payload (f : form_state) : value :=
  VObj (foldl (fun fields entry => <[entry.1 := VStr entry.2]> fields) ∅
              (controls f)).

(** [form.reset()] *)
Definition reset (f : form_state) : form_state := Form (defaults f) (defaults f).

Definition reset_form (selector : string) : M unit :=
  modify (fun p => set_forms (alter reset selector (forms p)) p).

(** The submit handler from the point where [postJSON] has been called with
    [payload]: the [try] block and its [catch]. ([event.preventDefault()]
    changes nothing of the page as modelled.) *)
Definition submitted (net : network) (selector endpoint : string)
    (onSuccess : option (value -> M unit)) (payload : value) : M unit :=
  try_catch
    (created ← lift (postJSON net endpoint payload);
     reset_form selector;;
     showMessage "Saved successfully." "success";;
     match onSuccess with
     | Some callback => callback created
     | None => mret tt
     end)
    (fun error => showMessage (message error) "error").

(** The whole submit handler, run against a network that answers at once. *)
Definition on_submit (net : network) (selector endpoint : string)
    (onSuccess : option (value -> M unit)) : M unit :=
  form ← read (fun p => forms p !! selector);
  match form with
  | None => mret tt
  | Some f => submitted net selector endpoint onSuccess (form_payload f)
  end.

Definition wireForm (formSelector endpoint : string)
    (onSuccess : option routine) : M unit :=
  form ← read (fun p => forms p !! formSelector);
  match form with
  | None => mret tt
  | Some _ =>
      modify (fun p =>
        set_listeners (listeners p ++ [(formSelector, endpoint, onSuccess)]) p)
  end.

(** ** The table renderers (lines 60-133) *)

(** The placeholder markup [<tr><td colspan="6" class="muted">...</td></tr>]. *)
Definition placeholder (text : string) : string :=
  "<tr><td colspan=" +:+ dq +:+ "6" +:+ dq +:+ " class=" +:+ dq +:+ "muted"
    +:+ dq +:+ ">" +:+ text +:+ "</td></tr>".

Definition no_patients : string := placeholder "No patients yet.".
Definition no_appointments : string := placeholder "No appointments yet.".
Definition no_bills : string := placeholder "No billing records yet.".

(** The fixed text of a row template: each interpolated cell sits on its
    own line, indented by eight spaces, between [<td>] and [</td>]; the
    literal ends with a line break and six spaces. *)
Definition sp8 : string := "        ".
Definition sp6 : string := "      ".

Definition row_markup (cells : list string) : string :=
  foldr (fun text rest => nl +:+ sp8 +:+ "<td>" +:+ text +:+ "</td>" +:+ rest)
        (nl +:+ sp6) cells.

(** A substitution [${receiver.key}] of a template literal: the property
    is read and converted at once, before the next substitution is
    looked at. *)
Definition sub (receiver : value) (key : string) : result string :=
  v ← get receiver key;
  to_string v.

(** The interpolations of the row template of [renderPatients]
    (lines 74-79). *)
Definition patient_cells (patient : value) : result (list string) :=
  id ← sub patient "id";
  name ← sub patient "name";
  age ← sub patient "age";
  gender ← sub patient "gender";
  contact ← (contact ← get patient "contact";
             to_string (or_else contact (VStr EmptyString)));
  created_at ← sub patient "created_at";
  Ok [id; name; age; gender; contact; created_at].

(** The interpolations of the row template of [renderAppointments]
    (lines 99-104). *)
Definition appointment_cells (appointment : value) : result (list string) :=
  id ← sub appointment "id";
  patient_name ← sub appointment "patient_name";
  patient_id ← sub appointment "patient_id";
  date ← sub appointment "date";
  time ← sub appointment "time";
  reason ← sub appointment "reason";
  status ← sub appointment "status";
  Ok [id;
      patient_name +:+ " (" +:+ patient_id +:+ ")";
      date;
      time;
      reason;
      status].

(** The interpolations of the row template of [renderBills]
    (lines 124-129). *)
Definition bill_cells (bill : value) : result (list string) :=
  id ← sub bill "id";
  patient_name ← sub bill "patient_name";
  patient_id ← sub bill "patient_id";
  description ← sub bill "description";
  amount ← sub bill "amount";
  status ← sub bill "status";
  created_at ← sub bill "created_at";
  Ok [id;
      patient_name +:+ " (" +:+ patient_id +:+ ")";
      description;
      amount;
      status;
      created_at].

(** [createElement("tr")] with [innerHTML] set to the template. *)
Definition tr (html : string) : node := Elem "tr" [] (set_html html).

Definition renderPatients (patients : value) : M unit :=
  body ← getElementById "patients-body";
  match body with
  | None => mret tt
  | Some _ =>
      set_innerHTML "patients-body" EmptyString;;
      len ← lift (get patients "length");
      if negb (truthy len) then
        set_innerHTML "patients-body" no_patients
      else
        forEach "patients" patients (fun patient =>
          cells ← lift (patient_cells patient);
          appendChild "patients-body" (tr (row_markup cells)))
  end.

Definition renderAppointments (appointments : value) : M unit :=
  body ← getElementById "appointments-body";
  match body with
  | None => mret tt
  | Some _ =>
      set_innerHTML "appointments-body" EmptyString;;
      len ← lift (get appointments "length");
      if negb (truthy len) then
        set_innerHTML "appointments-body" no_appointments
      else
        forEach "appointments" appointments (fun appointment =>
          cells ← lift (appointment_cells appointment);
          appendChild "appointments-body" (tr (row_markup cells)))
  end.

Definition renderBills (bills : value) : M unit :=
  body ← getElementById "billing-body";
  match body with
  | None => mret tt
  | Some _ =>
      set_innerHTML "billing-body" EmptyString;;
      len ← lift (get bills "length");
      if negb (truthy len) then
        set_innerHTML "billing-body" no_bills
      else
        forEach "bills" bills (fun bill =>
          cells ← lift (bill_cells bill);
          appendChild "billing-body" (tr (row_markup cells)))
  end.

(** ** The refresh routines (lines 135-180) *)

Definition refreshOverview (net : network) : M unit :=
  try_catch
    (data ← lift (getJSON net "/api/overview");
     patients ← lift (get data "patients");
     appointments ← lift (get data "appointments");
     bills ← lift (get data "bills");
     unpaid ← lift (get data "unpaid");
     for_each
       (fun entry : string * value =>
          node ← getElementById entry.1;
          match node with
          | Some _ => set_textContent entry.1 entry.2
          | None => mret tt
          end)
       [("total-patients", patients); ("total-appointments", appointments);
        ("total-bills", bills); ("total-unpaid", unpaid)])
    (fun _ => showMessage "Unable to refresh overview." "error").

Definition refreshPatients (net : network) : M unit :=
  try_catch
    (patients ← lift (getJSON net "/api/patients");
     renderPatients patients)
    (fun _ => showMessage "Unable to refresh patients." "error").

Definition refreshAppointments (net : network) : M unit :=
  try_catch
    (appointments ← lift (getJSON net "/api/appointments");
     renderAppointments appointments)
    (fun _ => showMessage "Unable to refresh appointments." "error").

Definition refreshBills (net : network) : M unit :=
  try_catch
    (bills ← lift (getJSON net "/api/bills");
     renderBills bills)
    (fun _ => showMessage "Unable to refresh billing records." "error").

Definition refresh (r : routine) : network -> M unit :=
  match r with
  | Overview => refreshOverview
  | Patients => refreshPatients
  | Appointments => refreshAppointments
  | Bills => refreshBills
  end.

(** The endpoint a routine fetches. *)
Definition endpoint (r : routine) : string :=
  match r with
  | Overview => "/api/overview"
  | Patients => "/api/patients"
  | Appointments => "/api/appointments"
  | Bills => "/api/bills"
  end.

(** ** The event loop

    Calling one of the asynchronous routines sends its request and returns;
    the rest of its body runs when the request settles. *)

Definition spawn (req : request) (k : continuation) : M unit :=
  modify (fun p =>
    set_sent (sent p ++ [req]) (set_inflight (inflight p ++ [(req, k)]) p)).

(** [refreshOverview()], [refreshPatients()], ... called from synchronous
    code; whatever argument the caller passes is ignored. *)
Definition call (r : routine) : M unit :=
  spawn (Get (endpoint r)) (AfterGet r).

(** [setInterval(routine, ms)] *)
Definition setInterval (r : routine) (ms : N) : M unit :=
  modify (fun p => set_intervals (intervals p ++ [(r, ms)]) p).

(** [a || b] for a string [a] that may be [undefined]. *)
Definition string_or (a : option string) (b : string) : string :=
  match a with
  | Some s => if is_empty s then b else s
  | None => b
  end.

(** ** The page dispatch (lines 2-3 and 182-203)

    [dataset_page] is [document.body.dataset.page]: absent, or a string. *)
Definition main (dataset_page : option string) : M unit :=
  let page := string_or dataset_page EmptyString in
  (if String.eqb page "index" then
     call Overview;;
     setInterval Overview 5000
   else mret tt);;
  (if String.eqb page "patients" then
     wireForm "form" "/api/patients" (Some Patients);;
     call Patients;;
     setInterval Patients 7000
   else mret tt);;
  (if String.eqb page "appointments" then
     wireForm "form" "/api/appointments" (Some Appointments);;
     call Appointments;;
     setInterval Appointments 7000
   else mret tt);;
  (if String.eqb page "billing" then
     wireForm "form" "/api/bills" (Some Bills);;
     call Bills;;
     setInterval Bills 7000
   else mret tt).

(** What the browser and the user do to a loaded page. *)
Inductive event :=
| Elapses (dt : N)
| Fires (i : nat)
| Edits (selector : string) (texts : list (string * string))
| Submits (selector : string)
| Settles (i : nat) (o : outcome).

(** The body of an asynchronous function after its request settled with
    [o]. *)
Definition resume (k : continuation) (req : request) (o : outcome) : M unit :=
  match k, req with
  | AfterGet r, _ => refresh r (fun _ => o)
  | AfterPost selector onSuccess, Post url payload =>
      submitted (fun _ => o) selector url
        ((fun r (_ : value) => call r) <$> onSuccess) payload
  | AfterPost _ _, Get _ => mret tt
  end.

(** The submit handler up to its first [await]. *)
Definition submit_listener (selector : string)
    (l : string * string * option routine) : M unit :=
  if String.eqb l.1.1 selector then
    form ← read (fun p => forms p !! selector);
    match form with
    | None => mret tt
    | Some f => spawn (Post l.1.2 (form_payload f)) (AfterPost selector l.2)
    end
  else mret tt.

Definition step (e : event) (p : page) : page :=
  match e with
  | Elapses dt => elapse dt p
  | Fires i =>
      match intervals p !! i with
      | Some (r, _) => exec (call r) p
      | None => p
      end
  | Edits selector texts =>
      set_forms (alter (fun f => Form texts (defaults f)) selector (forms p)) p
  | Submits selector =>
      exec (for_each (submit_listener selector) (listeners p)) p
  | Settles i o =>
      match inflight p !! i with
      | Some (req, k) =>
          exec (resume k req o) (set_inflight (delete i (inflight p)) p)
      | None => p
      end
  end.

Definition run (events : list event) (p : page) : page :=
  foldl (fun q e => step e q) p events.

(** ** Reading the results *)

(** [record.key] for a JSON object. *)
Definition field (record : gmap string value) (key : string) : value :=
  default VUndefined (record !! key).

(** The number of places where [pat] starts in [s]. *)
Fixpoint occurrences (pat s : string) : nat :=
  match s with
  | EmptyString => 0
  | String _ rest =>
      (if String.prefix pat s then 1 else 0) + occurrences pat rest
  end.

(** [pat] occurs in [s] as text. *)
Definition contains (pat s : string) : Prop :=
  ∃ before after, s = before +:+ pat +:+ after.


(** The markup of a tree of elements whose texts need no escaping; it is
    used to read the placeholder literals as the rows they stand for. *)
Fixpoint serialize (n : node) : string :=
  match n with
  | Markup html => html
  | Text s => s
  | Elem tag attrs kids =>
      "<" +:+ tag
        +:+ foldr (fun a rest => " " +:+ a.1 +:+ "=" +:+ dq +:+ a.2 +:+ dq +:+ rest)
                  EmptyString attrs
        +:+ ">"
        +:+ foldr (fun kid rest => serialize kid +:+ rest) EmptyString kids
        +:+ "</" +:+ tag +:+ ">"
  end.

(** One row holding one cell that spans [columns] columns. *)
Definition placeholder_row (columns : nat) (text : string) : node :=
  Elem "tr" []
    [Elem "td" [("colspan", pretty columns); ("class", "muted")] [Text text]].

(** The rows a renderer appends for the items of an array, up to the first
    item whose template throws. *)
Fixpoint rows (cells : value -> result (list string)) (items : list value)
    : list node :=
  match items with
  | [] => []
  | item :: rest =>
      match cells item with
      | Ok c => tr (row_markup c) :: rows cells rest
      | Throw _ => []
      end
  end.

(** The children of a table body after its renderer ran on [input]. *)
Definition table_content (empty_markup : string)
    (cells : value -> result (list string)) (input : value) : list node :=
  match get input "length" with
  | Throw _ => []
  | Ok len =>
      if negb (truthy len) then set_html empty_markup
      else match input with
           | VArr items => rows cells items
           | _ => []
           end
  end.

(** The common shape of the three renderers. *)
Definition render_table (id name empty_markup : string)
    (cells : value -> result (list string)) (input : value) : M unit :=
  body ← getElementById id;
  match body with
  | None => mret tt
  | Some _ =>
      set_innerHTML id EmptyString;;
      len ← lift (get input "length");
      if negb (truthy len) then
        set_innerHTML id empty_markup
      else
        forEach name input (fun item =>
          c ← lift (cells item);
          appendChild id (tr (row_markup c)))
  end.

(** The identifier of the table body a list routine renders into, its
    placeholder, its row template, and the text of its failure message. *)
Definition body_id (r : routine) : string :=
  match r with
  | Overview => EmptyString
  | Patients => "patients-body"
  | Appointments => "appointments-body"
  | Bills => "billing-body"
  end.

Definition empty_markup (r : routine) : string :=
  match r with
  | Overview => EmptyString
  | Patients => no_patients
  | Appointments => no_appointments
  | Bills => no_bills
  end.

Definition cells_of (r : routine) : value -> result (list string) :=
  match r with
  | Overview => fun _ => Ok []
  | Patients => patient_cells
  | Appointments => appointment_cells
  | Bills => bill_cells
  end.

Definition render (r : routine) : value -> M unit :=
  match r with
  | Overview => fun _ => mret tt
  | Patients => renderPatients
  | Appointments => renderAppointments
  | Bills => renderBills
  end.

Definition failure_text (r : routine) : string :=
  match r with
  | Overview => "Unable to refresh overview."
  | Patients => "Unable to refresh patients."
  | Appointments => "Unable to refresh appointments."
  | Bills => "Unable to refresh billing records."
  end.

(** The element the notifier inserts. *)
Definition flash (kind text : string) : node :=
  Elem "div" [("class", "flash " +:+ kind)] (set_text text).

(** A page as the script finds it when it starts: nothing shown, nothing
    scheduled, nothing sent. *)
Definition loaded (host : bool) (els : gmap string (list node))
    (fs : gmap string form_state) : page :=
  Page 0 (if host then Some [] else None) 0 els fs [] [] [] [] [].

(** The part of the page the notifier and its timers work on. *)
Definition view (p : page)
    : N * option (list (nat * node)) * nat * list (N * nat) :=
  (clock p, messageHost p, fresh p, timeouts p).

(** [shows p q]: the notifier's part of [q] is that of [p] after some calls
    of [showMessage]. *)
Inductive shows : page -> page -> Prop :=
| shows_none p q : view p = view q -> shows p q
| shows_more p q q' text kind :
    shows p q ->
    view q' = view (exec (showMessage text kind) q) ->
    shows p q'.

(** The identifiers of the messages on display. *)
Definition displayed (p : page) : list nat :=
  from_option (fmap fst) [] (messageHost p).

(** The notifier's part of a page is in order: the messages on display are
    exactly the ones with a pending removal timer, in the same order; each
    timer runs later than now and no later than the display duration from
    now; identities are not reused. *)
Definition tidy (p : page) : Prop :=
  displayed p = (timeouts p).*2 ∧
  NoDup (timeouts p).*2 ∧
  Forall (fun timer => (clock p < timer.1 ≤ clock p + display_ms)%N
                       ∧ timer.2 < fresh p) (timeouts p).

(** The total time that passes in a sequence of events. *)
Definition elapsed (events : list event) : N :=
  foldr (fun e total => match e with Elapses dt => (dt + total)%N | _ => total end)
        0%N events.

(** The fields the data model lists for the records of each collection. *)
Definition columns (r : routine) : list string :=
  match r with
  | Overview => []
  | Patients => ["id"; "name"; "age"; "gender"; "contact"; "created_at"]
  | Appointments =>
      ["id"; "patient_name"; "patient_id"; "date"; "time"; "reason"; "status"]
  | Bills =>
      ["id"; "patient_name"; "patient_id"; "description"; "amount"; "status";
       "created_at"]
  end.

(** The markup of the row a renderer makes for a record. *)
Definition record_markup (r : routine) (record : gmap string value) : string :=
  match cells_of r (VObj record) with
  | Ok cells => row_markup cells
  | Throw _ => EmptyString
  end.

(** The message of each placeholder and the collection it names. *)
Definition empty_text (r : routine) : string :=
  match r with
  | Overview => EmptyString
  | Patients => "No patients yet."
  | Appointments => "No appointments yet."
  | Bills => "No billing records yet."
  end.

Definition collection (r : routine) : string :=
  match r with
  | Overview => "overview"
  | Patients => "patients"
  | Appointments => "appointments"
  | Bills => "billing"
  end.

(** Sample records. *)
Definition sample_patient : gmap string value :=
  <["id" := VNum (Number "1" true)]> (<["name" := VStr "Ann"]>
  (<["age" := VNum (Number "34" true)]> (<["gender" := VStr "F"]>
  (<["contact" := VNum (Number "0" false)]>
  (<["created_at" := VStr "12 May"]> ∅))))).

Definition sample_appointment : gmap string value :=
  <["id" := VNum (Number "5" true)]> (<["patient_name" := VStr "Ann"]>
  (<["patient_id" := VNum (Number "1" true)]> (<["date" := VStr "2024-05-12"]>
  (<["time" := VStr "09:30"]> (<["reason" := VStr "Checkup"]>
  (<["status" := VStr "Scheduled"]> ∅)))))).

(** [keeps R m]: the page [m] leaves is related by [R] to the page it
    started on, whether it returns or throws. *)
Definition keeps (R : relation page) {A} (m : M A) : Prop :=
  ∀ p, R p (m p).2.

(** The identifiers of the elements a routine writes to. *)
Definition targets (r : routine) : list string :=
  match r with
  | Overview =>
      ["total-patients"; "total-appointments"; "total-bills"; "total-unpaid"]
  | _ => [body_id r]
  end.

(** [within r p q]: from [p] to [q] no interval or listener was registered,
    no element other than the targets of [r] was written to, and the only
    requests sent are GETs to the endpoint of [r], each to be continued by
    the routine [r]. *)
Definition within (r : routine) (p q : page) : Prop :=
  intervals q = intervals p
  ∧ listeners q = listeners p
  ∧ (∀ id, id ∉ targets r -> elements q !! id = elements p !! id)
  ∧ ∃ n, inflight q = inflight p ++ replicate n (Get (endpoint r), AfterGet r)
       ∧ sent q = sent p ++ replicate n (Get (endpoint r)).

(** The value of [data-page] for the page of a routine, the endpoint its
    form posts to, and the period of its timer. *)
Definition page_name (r : routine) : string :=
  match r with
  | Overview => "index"
  | Patients => "patients"
  | Appointments => "appointments"
  | Bills => "billing"
  end.

Definition create_endpoint (r : routine) : option string :=
  match r with
  | Overview => None
  | _ => Some (endpoint r)
  end.

Definition period (r : routine) : N :=
  match r with
  | Overview => 5000
  | _ => 7000
  end.

(** What the dispatch does on the page of routine [r]: the form, if the
    page has one and a form belongs to the page, gets a listener; the first
    refresh is started; the timer is registered. *)
Definition wiring (r : routine) (p : page) : page :=
  set_intervals (intervals p ++ [(r, period r)])
    (set_sent (sent p ++ [Get (endpoint r)])
       (set_inflight (inflight p ++ [(Get (endpoint r), AfterGet r)])
          (set_listeners
             (listeners p ++
                match create_endpoint r, forms p !! "form" with
                | Some url, Some _ => [("form", url, Some r)]
                | _, _ => []
                end) p))).

(** A request that belongs to the page of [r]: a GET to its list endpoint
    or a POST to its create endpoint. *)
Definition belongs (r : routine) (req : request) : Prop :=
  match req with
  | Get url => url = endpoint r
  | Post url _ => Some url = create_endpoint r
  end.

(** [confined r p]: everything registered, in flight or sent on the page
    belongs to the routine [r]. *)
Definition confined (r : routine) (p : page) : Prop :=
  Forall (fun i => i.1 = r) (intervals p)
  ∧ Forall (fun l => Some l.1.2 = create_endpoint r ∧ l.2 = Some r)
           (listeners p)
  ∧ Forall (fun f => belongs r f.1
                     ∧ (f.2 = AfterGet r
                        ∨ ∃ selector, f.2 = AfterPost selector (Some r)))
           (inflight p)
  ∧ Forall (belongs r) (sent p).

(** [tracked due id p]: the page is tidy, the identity [id] has been given
    out, a timer that holds [id] is due at [due], and unless [due] has
    passed such a timer is pending. *)
Definition tracked (due : N) (id : nat) (p : page) : Prop :=
  tidy p
  ∧ id < fresh p
  ∧ (∀ d, (d, id) ∈ timeouts p -> d = due)
  ∧ ((due ≤ clock p)%N ∨ (due, id) ∈ timeouts p).

(** ** Reading how a renderer ends *)

(** The name of the renderer's parameter, which the [forEach] error names. *)
Definition array_name (r : routine) : string :=
  match r with
  | Overview => EmptyString
  | Patients => "patients"
  | Appointments => "appointments"
  | Bills => "bills"
  end.

Definition nullish (v : value) : bool :=
  match v with
  | VUndefined | VNull => true
  | _ => false
  end.

(** [ToString] returns on [v]. *)
Definition convertible (v : value) : bool :=
  match to_string v with
  | Ok _ => true
  | Throw _ => false
  end.

(** The items a row template of routine [r] returns on: those that are
    neither [null] nor [undefined] and whose fields read by the template
    can all be converted. *)
Definition item_renders (r : routine) (item : value) : bool :=
  forallb (fun key => match get item key with
                      | Ok v => convertible v
                      | Throw _ => false
                      end) (columns r).

(** The inputs on which the renderer of routine [r] returns normally:
    anything whose [length] is not truthy, and arrays all of whose items
    the row template returns on. *)
Definition renders (r : routine) (input : value) : bool :=
  match input with
  | VUndefined | VNull => false
  | VBool _ | VNum _ => true
  | VStr s => is_empty s
  | VArr items => forallb (item_renders r) items
  | VObj fields => negb (truthy (field fields "length"))
  end.

(** The summary elements and the fields of the overview they show, in the
    order of the object literal of [refreshOverview]. *)
Definition overview_entries : list (string * string) :=
  [("total-patients", "patients"); ("total-appointments", "appointments");
   ("total-bills", "bills"); ("total-unpaid", "unpaid")].

(** What [refreshOverview] does to the elements for one entry of its map:
    the element with that identifier, if there is one, gets the text of the
    value. *)
Definition write_total (id : string) (text : string)
    (els : gmap string (list node)) : gmap string (list node) :=
  match els !! id with
  | Some _ => <[id := set_text text]> els
  | None => els
  end.

(** The text a summary element gets for a value, and what the loop of
    [refreshOverview] does to the elements for the entries it gets
    through. *)
Definition summary_text (v : value) : string :=
  match text_content_of v with
  | Ok text => text
  | Throw _ => EmptyString
  end.

Definition write_totals (entries : list (string * value))
    (els : gmap string (list node)) : gmap string (list node) :=
  foldl (fun els entry => write_total entry.1 (summary_text entry.2) els)
        els entries.

(** The entries of the map of [refreshOverview] for a response [data]
    that is not [null]: each summary element with the value it is to show,
    [undefined] for a field the response has not. *)
Definition summaries (data : value) : list (string * value) :=
  (fun entry : string * string =>
     (entry.1, match get data entry.2 with
               | Ok v => v
               | Throw _ => VUndefined
               end)) <$> overview_entries.

(** ** Reading markup as text

    What the HTML parser makes of the markup of a cell is modelled for
    markup without tags only: the character references [&amp;], [&lt;],
    [&gt;] and [&quot;] stand for their characters and every other
    character for itself. Markup with a [<], with another [&], with a
    carriage return or with a NUL character is left unread. *)




(** ** Cells and fields *)

(** The text of a field of a record, where it has one. *)
Definition field_text (record : gmap string value) (key : string) : string :=
  match to_string (field record key) with
  | Ok text => text
  | Throw _ => EmptyString
  end.

(** The cells of the rows described by the fields of the record: every
    cell the text of one field, but for the contact of a patient, left
    empty when it is not truthy, and for the second cell of an appointment
    or a bill, made of the name and the identifier of the patient. *)
Definition cells_by_fields (r : routine) (record : gmap string value)
    : list string :=
  let text := field_text record in
  match r with
  | Overview => []
  | Patients =>
      [text "id"; text "name"; text "age"; text "gender";
       (if truthy (field record "contact") then text "contact"
        else EmptyString);
       text "created_at"]
  | Appointments =>
      [text "id"; text "patient_name" +:+ " (" +:+ text "patient_id" +:+ ")";
       text "date"; text "time"; text "reason"; text "status"]
  | Bills =>
      [text "id"; text "patient_name" +:+ " (" +:+ text "patient_id" +:+ ")";
       text "description"; text "amount"; text "status"; text "created_at"]
  end.






(** * Properties *)

(** ** Pages and computations *)

Lemma set_elements_same p : set_elements (elements p) p = p.
Proof. by destruct p. Qed.

Lemma set_elements_twice e1 e2 p :
  set_elements e2 (set_elements e1 p) = set_elements e2 p.
Proof. done. Qed.

Lemma bind_run {A B} (m : M A) (k : A -> M B) p :
  (m ≫= k) p =
  match m p with
  | (Ok a, q) => k a q
  | (Throw e, q) => (Throw e, q)
  end.
Proof. done. Qed.

Lemma get_record record key : get (VObj record) key = Ok (field record key).
Proof. done. Qed.

(** ** Text *)





Lemma contains_here pat before after : contains pat (before +:+ pat +:+ after).
Proof. by exists before, after. Qed.



(** ** The renderers write what [table_content] says *)

Lemma row_markup_not_empty cells : set_html (row_markup cells) = [Markup (row_markup cells)].
Proof. by destruct cells. Qed.

Lemma append_rows id (cells : value -> result (list string)) items : ∀ p kids,
  elements p !! id = Some kids ->
  exec (for_each (fun item => c ← lift (cells item);
                              appendChild id (tr (row_markup c))) items) p
  = set_elements (<[id := kids ++ rows cells items]> (elements p)) p.
Proof.
  induction items as [|item rest IH]; intros p kids Hid.
  - simpl. rewrite app_nil_r, insert_id by done. by rewrite set_elements_same.
  - unfold exec in *. simpl. rewrite !bind_run. unfold lift at 1.
    destruct (cells item) as [c|e]; simpl.
    + rewrite (IH _ (kids ++ [tr (row_markup c)])).
      * simpl. rewrite insert_alter_eq, <- app_assoc. done.
      * simpl. by rewrite lookup_alter_eq, Hid.
    + rewrite app_nil_r, insert_id by done. by rewrite set_elements_same.
Qed.

Lemma append_rows_ok id (cells : value -> result (list string)) items : ∀ p,
  Forall (fun item => ∃ c, cells item = Ok c) items ->
  (for_each (fun item => c ← lift (cells item);
                         appendChild id (tr (row_markup c))) items p).1 = Ok tt.
Proof.
  induction items as [|item rest IH]; intros p Hall; [done |].
  inversion Hall as [|? ? [c Hc] Hrest]; subst.
  simpl. rewrite !bind_run. unfold lift at 1. rewrite Hc. simpl.
  by apply IH.
Qed.

Lemma render_table_absent id name markup cells input p :
  elements p !! id = None ->
  render_table id name markup cells input p = (Ok tt, p).
Proof.
  intros Hid. unfold render_table. rewrite bind_run.
  unfold getElementById, read. by rewrite Hid.
Qed.

Lemma render_table_exec id name markup cells input p old :
  elements p !! id = Some old ->
  exec (render_table id name markup cells input) p
  = set_elements (<[id := table_content markup cells input]> (elements p)) p.
Proof.
  intros Hid. unfold exec, render_table. rewrite bind_run.
  unfold getElementById, read. rewrite Hid.
  rewrite bind_run. unfold set_innerHTML at 1, modify at 1.
  rewrite bind_run. unfold lift at 1, table_content.
  destruct (get input "length") as [len|e]; [| done].
  destruct (negb (truthy len)).
  - unfold set_innerHTML, modify. simpl. by rewrite insert_insert_eq.
  - unfold forEach.
    assert (Hclear : elements
      (set_elements (<[id := set_html EmptyString]> (elements p)) p) !! id
      = Some []) by (simpl; by rewrite lookup_insert_eq).
    destruct input; try (simpl; done).
    fold (exec (for_each (fun item => c ← lift (cells item);
                            appendChild id (tr (row_markup c))) items)
               (set_elements (<[id := set_html EmptyString]> (elements p)) p)).
    rewrite (append_rows _ _ _ _ _ Hclear). simpl.
    by rewrite insert_insert_eq.
Qed.

Lemma renderPatients_table :
  renderPatients = render_table "patients-body" "patients" no_patients patient_cells.
Proof. done. Qed.

Lemma renderAppointments_table :
  renderAppointments
  = render_table "appointments-body" "appointments" no_appointments
                 appointment_cells.
Proof. done. Qed.

Lemma renderBills_table :
  renderBills = render_table "billing-body" "bills" no_bills bill_cells.
Proof. done. Qed.

Lemma render_as_table r :
  r ≠ Overview ->
  ∃ name, render r = render_table (body_id r) name (empty_markup r) (cells_of r).
Proof.
  destruct r; intros Hr; [done | | |].
  - by exists "patients".
  - by exists "appointments".
  - by exists "bills".
Qed.

(** ** When a conversion returns *)

Lemma falsy_convertible v : truthy v = false -> convertible v = true.
Proof. by destruct v as [| |[]| | | |]. Qed.

Lemma or_else_convertible v s :
  convertible (or_else v (VStr s)) = convertible v.
Proof.
  unfold or_else. destruct (truthy v) eqn:Hv; [done |].
  by rewrite (falsy_convertible v).
Qed.


Lemma join_throws texts e :
  Forall (fun text => ∀ e', text = Throw e' -> e' = no_primitive) texts ->
  join texts = Throw e -> e = no_primitive.
Proof.
  induction 1 as [|text rest Htext _ IH]; [done |].
  cbn [join]. destruct text as [item|e']; simpl.
  - destruct rest as [|next rest]; [done |].
    destruct (join (next :: rest)) as [tail|e'']; [done |].
    intros [= <-]. by apply IH.
  - intros [= <-]. by apply Htext.
Qed.

(** A conversion that throws, throws the [TypeError] of [ToPrimitive]. *)
Lemma to_string_throws : ∀ v e, to_string v = Throw e -> e = no_primitive.
Proof.
  fix IH 1. intros [| | [] | n | s | items | fields] e; simpl; try discriminate.
  - apply join_throws.
    induction items as [|x rest IHrest]; constructor; [| exact IHrest].
    intros e'. pose proof (IH x e') as Hx. by destruct x.
  - destruct (fields !! "toString"); [by intros [= <-] | discriminate].
Qed.


Lemma record_renders r record :
  item_renders r (VObj record) = true
  ↔ ∀ key, key ∈ columns r -> convertible (field record key) = true.
Proof.
  unfold item_renders. rewrite forallb_forall. split.
  - intros H key Hkey. apply list_elem_of_In in Hkey. by apply H in Hkey.
  - intros H key Hkey. apply list_elem_of_In in Hkey. by apply H.
Qed.

Lemma ok_bind {A B} (a : A) (k : A -> result B) : (Ok a ≫= k) = k a.
Proof. done. Qed.

Ltac throws_cases H :=
  repeat match goal with
  | |- context [to_string (field ?record ?key)] =>
      let E := fresh "E" in
      destruct (to_string (field record key)) eqn:E;
      [| exfalso;
         let Hk := fresh in
         assert (Hk : convertible (field record key) = true)
           by (apply H, list_elem_of_In; simpl; auto 10);
         unfold convertible in Hk; rewrite E in Hk; done ]
  end.

Lemma record_cells r record :
  item_renders r (VObj record) = true ->
  cells_of r (VObj record) = Ok (cells_by_fields r record).
Proof.
  intros H. pose proof (proj1 (record_renders _ _) H) as Hall. clear H.
  destruct r; [done | | |];
    unfold cells_of, cells_by_fields, patient_cells, appointment_cells,
      bill_cells, sub, field_text, or_else; rewrite !get_record, !ok_bind;
    try destruct (truthy (field record "contact"));
    by throws_cases Hall.
Qed.


Ltac each_column Hkey :=
  simpl in Hkey;
  repeat (apply elem_of_cons in Hkey as [-> | Hkey]);
  try (by apply elem_of_nil in Hkey).

Lemma cells_of_item r item :
  r ≠ Overview ->
  (∃ c, cells_of r item = Ok c) ↔ item_renders r item = true.
Proof.
  intros Hr. destruct item as [| | b | n | s | items | fields];
    try (destruct r; [done | | |];
         (split; [intros [c Hc]; by vm_compute in Hc
                 | intros H; by vm_compute in H]));
    try (destruct r; [done | | |];
         (split; [intros _; by vm_compute | intros _; eexists; reflexivity])).
  split; [| intros H; eexists; by apply record_cells].
  intros [c Hc]. apply record_renders. intros key Hkey. revert Hc.
  destruct r; [done | | |]; each_column Hkey;
    unfold cells_of, patient_cells, appointment_cells, bill_cells, sub;
    rewrite !get_record, !ok_bind;
    rewrite <- ?(or_else_convertible (field fields "contact") EmptyString);
    unfold convertible;
    repeat match goal with
    | |- context [to_string ?v] => destruct (to_string v); [| by simpl]
    end; done.
Qed.


Lemma truthy_length (l : list value) :
  l ≠ [] -> truthy (VNum (count (length l))) = true.
Proof. by destruct l. Qed.







(** ** Markup that reads as itself *)






(** ** The cells of a row *)











(** ** One row per record *)





(** ** The placeholder row *)

Lemma render_table_empty id name markup
    (cells : value -> result (list string)) p old :
  elements p !! id = Some old ->
  render_table id name markup cells (VArr []) p
  = (Ok tt, set_elements (<[id := set_html markup]> (elements p)) p).
Proof.
  intros Hid. unfold render_table. rewrite bind_run.
  unfold getElementById, read. rewrite Hid.
  rewrite bind_run. unfold set_innerHTML, modify.
  rewrite bind_run. unfold lift. simpl.
  by rewrite insert_insert_eq.
Qed.

Lemma cells_length r item cells :
  r ≠ Overview -> cells_of r item = Ok cells -> length cells = 6.
Proof.
  intros Hr Hcells.
  destruct item as [| | b | n | s | items | fields];
    try (destruct r; [done | | |]; vm_compute in Hcells;
         first [discriminate Hcells | by injection Hcells as <-]).
  assert (Hrecord : item_renders r (VObj fields) = true)
    by (apply cells_of_item; [done | by eexists]).
  rewrite (record_cells _ _ Hrecord) in Hcells. injection Hcells as <-.
  by destruct r.
Qed.

(** C4: for an empty input sequence, a renderer whose table body exists
    leaves in it exactly the placeholder markup, which is one row of one
    cell spanning six columns, as many as a row has cells whenever the row
    template returns, which it does on every record whose fields can be
    converted to text, with a message that names the collection. *)
Theorem empty_input_placeholder (r : routine) (p : page) (old : list node) :
  r ≠ Overview ->
  elements p !! body_id r = Some old ->
  render r (VArr []) p
    = (Ok tt,
       set_elements (<[body_id r := [Markup (empty_markup r)]]> (elements p)) p)
  ∧ empty_markup r = serialize (placeholder_row 6 (empty_text r))
  ∧ occurrences "<tr" (empty_markup r) = 1
  ∧ (∀ item cells, cells_of r item = Ok cells -> length cells = 6)
  ∧ (∀ record, item_renders r (VObj record) = true ->
       ∃ cells, cells_of r (VObj record) = Ok cells ∧ length cells = 6)
  ∧ contains (collection r) (empty_text r).
Proof.
  intros Hr Hid. destruct (render_as_table r Hr) as [name ->].
  rewrite (render_table_empty _ _ _ _ _ _ Hid).
  split; [by destruct r |]. split; [by destruct r |]. split; [by destruct r |].
  split; [intros item cells; by apply cells_length |].
  split.
  { intros record Hrecord. exists (cells_by_fields r record).
    split; [by apply record_cells |].
    apply (cells_length r (VObj record)); [done | by apply record_cells]. }
  destruct r; [done | | |].
  - by exists "No ", " yet.".
  - by exists "No ", " yet.".
  - by exists "No ", " records yet.".
Qed.

Lemma empty_input_placeholder_witness :
  render Bills (VArr []) (loaded false {[ "billing-body" := [Text "stale"] ]} ∅)
  = (Ok tt,
     set_elements
       (<["billing-body" := [Markup no_bills]]>
          (elements (loaded false {[ "billing-body" := [Text "stale"] ]} ∅)))
       (loaded false {[ "billing-body" := [Text "stale"] ]} ∅)).
Proof.
  apply (empty_input_placeholder Bills
           (loaded false {[ "billing-body" := [Text "stale"] ]} ∅)
           [Text "stale"]); [done | by vm_compute].
Defined.

(** ** Rendering overwrites *)

(** C10: a renderer whose table body exists first empties it, so that the
    body afterwards holds [table_content] of the input whatever it held
    before: two pages rendered with the same input have the same body
    content, and rendering the same input a second time changes nothing. *)
Theorem render_overwrites (r : routine) (input : value) (p q : page)
    (old_p old_q : list node) :
  r ≠ Overview ->
  elements p !! body_id r = Some old_p ->
  elements q !! body_id r = Some old_q ->
  exec (render r input) p
    = exec (render r input)
           (set_elements (<[body_id r := []]> (elements p)) p)
  ∧ elements (exec (render r input) p) !! body_id r
    = Some (table_content (empty_markup r) (cells_of r) input)
  ∧ elements (exec (render r input) p) !! body_id r
    = elements (exec (render r input) q) !! body_id r
  ∧ exec (render r input) (exec (render r input) p) = exec (render r input) p.
Proof.
  intros Hr Hp Hq. destruct (render_as_table r Hr) as [name ->].
  rewrite (render_table_exec _ _ _ _ _ _ _ Hp).
  rewrite (render_table_exec _ _ _ _ _ _ _ Hq).
  assert (Hcleared :
    elements (set_elements (<[body_id r := []]> (elements p)) p) !! body_id r
    = Some []) by (simpl; by rewrite lookup_insert_eq).
  rewrite (render_table_exec _ _ _ _ _ _ _ Hcleared).
  assert (Hdone :
    elements (set_elements
      (<[body_id r := table_content (empty_markup r) (cells_of r) input]>
         (elements p)) p) !! body_id r
    = Some (table_content (empty_markup r) (cells_of r) input))
    by (simpl; by rewrite lookup_insert_eq).
  rewrite (render_table_exec _ _ _ _ _ _ _ Hdone).
  simpl. rewrite !lookup_insert_eq, !insert_insert_eq. done.
Qed.

Lemma render_overwrites_witness :
  elements (exec (render Appointments (VArr [VObj sample_appointment]))
                 (loaded true {[ "appointments-body" := [Text "one"] ]} ∅))
    !! "appointments-body"
  = elements (exec (render Appointments (VArr [VObj sample_appointment]))
                   (loaded true {[ "appointments-body" :=
                                     [Text "two"; Text "three"] ]} ∅))
      !! "appointments-body".
Proof.
  apply (render_overwrites Appointments (VArr [VObj sample_appointment])
           (loaded true {[ "appointments-body" := [Text "one"] ]} ∅)
           (loaded true {[ "appointments-body" := [Text "two"; Text "three"] ]} ∅)
           [Text "one"] [Text "two"; Text "three"]);
    [done | by vm_compute | by vm_compute].
Defined.

(** ** The HTTP helpers *)

(** C2 (as stated) fails in two ways. A failure response whose [error]
    field is present but not truthy makes [postJSON] fail with the generic
    message, which is not the text of the field. And a failure response
    whose [error] field is an object with a key [toString] makes [postJSON]
    fail with the [TypeError] of converting it, which is neither. *)
Lemma falsy_error_field_falls_back :
  Forall
    (fun e =>
       field {[ "error" := e ]} "error" = e
       ∧ postJSON (fun _ => Response 400 (Json (VObj {[ "error" := e ]})))
                  "/api/patients" (VObj ∅)
         = Throw (JsError PlainError request_failed)
       ∧ to_string e ≠ Ok request_failed)
    [VStr EmptyString; VNum (Number "0" false); VBool false; VNull]
  ∧ (let e := VObj {[ "toString" := VNull ]} in
     field {[ "error" := e ]} "error" = e
     ∧ postJSON (fun _ => Response 400 (Json (VObj {[ "error" := e ]})))
                "/api/patients" (VObj ∅)
       = Throw no_primitive
     ∧ kind_of no_primitive = TypeError).
Proof. split; [repeat constructor; by vm_compute | by vm_compute]. Qed.

(** C2 (as amended): when [fetch] answers with a response, [getJSON] fails
    with the generic message if the status is not successful and otherwise
    settles as parsing the body does; [postJSON] parses the body whatever
    the status, fails as the parse does if the body is not JSON, resolves
    with the parsed body on a successful status, and on any other status
    fails with the text of the [error] field of the parsed object when that
    field is truthy and can be converted to text, with the [TypeError] of
    the conversion when it is truthy and cannot, and with the generic
    message when it is absent or not truthy. *)
Theorem helpers_settle (net : network) (url : string) (payload : value)
    (status : Z) :
  (∀ b, net (Get url) = Response status b ->
     getJSON net url
     = if ok status then json b else Throw (JsError PlainError request_failed))
  ∧ (∀ why, net (Post url payload) = Response status (Malformed why) ->
       postJSON net url payload = Throw (JsError SyntaxError why))
  ∧ (∀ data, net (Post url payload) = Response status (Json data) ->
       ok status = true ->
       postJSON net url payload = Ok data)
  ∧ (∀ fields, net (Post url payload) = Response status (Json (VObj fields)) ->
       ok status = false ->
       (∀ text, truthy (field fields "error") = true ->
          to_string (field fields "error") = Ok text ->
          postJSON net url payload = Throw (JsError PlainError text))
       ∧ (∀ e, truthy (field fields "error") = true ->
            to_string (field fields "error") = Throw e ->
            postJSON net url payload = Throw e ∧ e = no_primitive)
       ∧ (truthy (field fields "error") = false ->
          postJSON net url payload = Throw (JsError PlainError request_failed))
       ∧ (fields !! "error" = None ->
          postJSON net url payload = Throw (JsError PlainError request_failed))).
Proof.
  unfold getJSON, postJSON, fetch. split; [| split; [| split]].
  - intros b ->. simpl. by destruct (ok status).
  - by intros why ->.
  - intros data -> Hok. simpl. by rewrite Hok.
  - intros fields -> Hok. simpl. rewrite Hok. simpl.
    fold (field fields "error"). unfold or_else.
    split; [| split; [| split]].
    + by intros text -> ->.
    + intros e -> He. rewrite He. split; [done |].
      by apply (to_string_throws _ _ He).
    + by intros ->.
    + intros Habsent. unfold field. by rewrite Habsent.
Qed.

Lemma helpers_settle_witness :
  getJSON (fun _ => Response 503 (Malformed "Unexpected token")) "/api/bills"
    = Throw (JsError PlainError request_failed)
  ∧ postJSON
      (fun _ => Response 400 (Json (VObj {[ "error" := VStr "Name required" ]})))
      "/api/patients" (VObj ∅)
    = Throw (JsError PlainError "Name required")
  ∧ postJSON
      (fun _ => Response 400
                  (Json (VObj {[ "error" := VObj {[ "toString" := VNull ]} ]})))
      "/api/patients" (VObj ∅)
    = Throw no_primitive
  ∧ postJSON (fun _ => Response 201 (Json (VObj sample_patient)))
      "/api/patients" (VObj ∅)
    = Ok (VObj sample_patient).
Proof.
  split; [| split; [| split]].
  - apply (proj1 (helpers_settle
      (fun _ => Response 503 (Malformed "Unexpected token")) "/api/bills"
      VNull 503) (Malformed "Unexpected token")).
    reflexivity.
  - exact (proj1 (proj2 (proj2 (proj2 (helpers_settle
      (fun _ => Response 400 (Json (VObj {[ "error" := VStr "Name required" ]})))
      "/api/patients" (VObj ∅) 400)))
      {[ "error" := VStr "Name required" ]} eq_refl eq_refl)
      "Name required" eq_refl eq_refl).
  - exact (proj1 (proj1 (proj2 (proj2 (proj2 (proj2 (helpers_settle
      (fun _ => Response 400
                  (Json (VObj {[ "error" := VObj {[ "toString" := VNull ]} ]})))
      "/api/patients" (VObj ∅) 400)))
      {[ "error" := VObj {[ "toString" := VNull ]} ]} eq_refl eq_refl))
      no_primitive eq_refl eq_refl)).
  - apply (proj1 (proj2 (proj2 (helpers_settle
      (fun _ => Response 201 (Json (VObj sample_patient)))
      "/api/patients" (VObj ∅) 201))) (VObj sample_patient));
      reflexivity.
Defined.

(** ** The notifier *)

Lemma showMessage_absent text kind p :
  messageHost p = None -> showMessage text kind p = (Ok tt, p).
Proof.
  intros Hhost. unfold showMessage. rewrite bind_run. unfold read.
  by rewrite Hhost.
Qed.

Lemma showMessage_present text kind p kids :
  messageHost p = Some kids ->
  showMessage text kind p
  = (Ok tt,
     set_timeouts (timeouts p ++ [((clock p + display_ms)%N, fresh p)])
       (set_messages (Some (kids ++ [(fresh p, flash kind text)]))
          (set_fresh (S (fresh p)) p))).
Proof.
  intros Hhost. unfold showMessage. rewrite bind_run. unfold read.
  by rewrite Hhost.
Qed.

Lemma showMessage_ok text kind p : (showMessage text kind p).1 = Ok tt.
Proof.
  destruct (messageHost p) as [kids|] eqn:Hhost.
  - by rewrite (showMessage_present _ _ _ _ Hhost).
  - by rewrite showMessage_absent.
Qed.

(** What one call of the notifier changes, and what it leaves alone. *)
Lemma showMessage_effect text kind p :
  let q := exec (showMessage text kind) p in
  messageHost q
    = (fun kids => kids ++ [(fresh p, flash kind text)]) <$> messageHost p
  ∧ elements q = elements p
  ∧ forms q = forms p
  ∧ intervals q = intervals p
  ∧ listeners q = listeners p
  ∧ inflight q = inflight p
  ∧ sent q = sent p
  ∧ clock q = clock p.
Proof.
  unfold exec. destruct (messageHost p) as [kids|] eqn:Hhost.
  - by rewrite (showMessage_present _ _ _ _ Hhost).
  - rewrite showMessage_absent by done. simpl. by rewrite Hhost.
Qed.

(** ** Form submissions *)

Lemma submitted_failure net selector endpoint onSuccess payload error p :
  postJSON net endpoint payload = Throw error ->
  submitted net selector endpoint onSuccess payload p
  = showMessage (message error) "error" p.
Proof.
  intros Hpost. unfold submitted, try_catch. rewrite bind_run.
  unfold lift at 1. by rewrite Hpost.
Qed.

(** C5: when the POST of a submission fails, the handler does nothing but
    call the notifier once, with the message of the failure and the kind
    [error]: the forms keep their contents, and the message host, when the
    page has one, gains exactly one child, the error message. *)
Theorem failed_submission (net : network) (selector endpoint : string)
    (onSuccess : option (value -> M unit)) (payload : value)
    (error : js_error) (p : page) :
  postJSON net endpoint payload = Throw error ->
  let q := exec (submitted net selector endpoint onSuccess payload) p in
  submitted net selector endpoint onSuccess payload p
    = showMessage (message error) "error" p
  ∧ forms q = forms p
  ∧ messageHost q
    = (fun kids => kids ++ [(fresh p, flash "error" (message error))])
        <$> messageHost p
  ∧ (∀ f, forms p !! selector = Some f -> payload = form_payload f ->
       on_submit net selector endpoint onSuccess p
       = showMessage (message error) "error" p).
Proof.
  intros Hpost q. subst q. unfold exec.
  rewrite (submitted_failure _ _ _ _ _ _ _ Hpost).
  destruct (showMessage_effect (message error) "error" p)
    as (Hhost & _ & Hforms & _).
  repeat split; [done | done |].
  intros f Hf ->. unfold on_submit. rewrite bind_run. unfold read.
  rewrite Hf. by apply submitted_failure.
Qed.

Lemma failed_submission_witness :
  let net : network :=
    fun _ => Response 400 (Json (VObj {[ "error" := VStr "Name required" ]})) in
  let p := loaded true ∅ {[ "form" := Form [("age", "41")] [("age", "0")] ]} in
  let q := exec (submitted net "form" "/api/patients" None
                   (form_payload (Form [("age", "41")] [("age", "0")]))) p in
  forms q = forms p
  ∧ messageHost q = Some [(0, flash "error" "Name required")].
Proof.
  intros net p q.
  destruct (failed_submission net "form" "/api/patients" None
              (form_payload (Form [("age", "41")] [("age", "0")]))
              (JsError PlainError "Name required") p eq_refl)
    as (_ & Hforms & Hhost & _).
  split; [exact Hforms | exact Hhost].
Defined.

Lemma submitted_success net selector endpoint onSuccess payload created p :
  postJSON net endpoint payload = Ok created ->
  submitted net selector endpoint onSuccess payload p
  = try_catch
      (match onSuccess with
       | Some callback => callback created
       | None => mret tt
       end)
      (fun error => showMessage (message error) "error")
      (exec (showMessage "Saved successfully." "success")
            (set_forms (alter reset selector (forms p)) p)).
Proof.
  intros Hpost. unfold submitted, try_catch, exec. rewrite bind_run.
  unfold lift at 1. rewrite Hpost.
  rewrite bind_run. unfold reset_form at 1, modify at 1.
  rewrite bind_run.
  pose proof (showMessage_ok "Saved successfully." "success"
                (set_forms (alter reset selector (forms p)) p)) as Hok.
  destruct (showMessage "Saved successfully." "success" _) as [res q].
  simpl in Hok. by subst res.
Qed.

(** C6 (as stated) fails: resetting a form does not clear a field that has
    a default value. After a successful submission of a form whose [age]
    field holds 41 and has the default 0, the field holds 0 again, which is
    not the empty text. *)
Lemma reset_restores_defaults :
  let net : network := fun _ => Response 201 (Json (VObj sample_patient)) in
  let f := Form [("age", "41")] [("age", "0")] in
  let p := loaded true ∅ {[ "form" := f ]} in
  let q := exec (on_submit net "form" "/api/patients" None) p in
  postJSON net "/api/patients" (form_payload f) = Ok (VObj sample_patient)
  ∧ forms q !! "form" = Some (Form [("age", "0")] [("age", "0")])
  ∧ ¬ ∃ f', forms q !! "form" = Some f'
            ∧ Forall (fun control => control.2 = EmptyString) (controls f').
Proof.
  intros net f p q. split; [by vm_compute |].
  assert (Hq : forms q !! "form" = Some (Form [("age", "0")] [("age", "0")]))
    by (by vm_compute).
  split; [done |]. intros (f' & Hf' & Hclear).
  rewrite Hq in Hf'. injection Hf' as <-.
  by apply Forall_cons in Hclear as [? _].
Qed.

(** C6 (as amended): when the POST of a submission succeeds with [created],
    the handler resets the form, so that every control holds its default
    text again, which clears a form whose defaults are empty and no other,
    calls the notifier exactly
    once, with the kind [success], and then calls [onSuccess], if there is
    one, with [created]; a callback that throws is reported through the
    handler's [catch]. The message host, when the page
    has one, has gained exactly one child, the success message, by the time
    the callback runs. *)
Theorem successful_submission (net : network) (selector endpoint : string)
    (onSuccess : option (value -> M unit)) (payload created : value)
    (p : page) :
  postJSON net endpoint payload = Ok created ->
  let q := exec (showMessage "Saved successfully." "success")
                (set_forms (alter reset selector (forms p)) p) in
  forms q = alter reset selector (forms p)
  ∧ (∀ f, forms p !! selector = Some f ->
       forms q !! selector = Some (Form (defaults f) (defaults f))
       ∧ (Forall (fun control => control.2 = EmptyString) (defaults f) ->
          ∃ f', forms q !! selector = Some f'
                ∧ Forall (fun control => control.2 = EmptyString) (controls f')))
  ∧ messageHost q
    = (fun kids => kids ++ [(fresh p, flash "success" "Saved successfully.")])
        <$> messageHost p
  ∧ (onSuccess = None ->
     submitted net selector endpoint onSuccess payload p = (Ok tt, q))
  ∧ (∀ callback, onSuccess = Some callback ->
       submitted net selector endpoint onSuccess payload p
       = try_catch (callback created)
           (fun error => showMessage (message error) "error") q)
  ∧ (∀ r, onSuccess = Some (fun _ => call r) ->
       submitted net selector endpoint onSuccess payload p
       = (Ok tt, exec (call r) q)).
Proof.
  intros Hpost q.
  destruct (showMessage_effect "Saved successfully." "success"
              (set_forms (alter reset selector (forms p)) p))
    as (Hhost & _ & Hforms & _).
  fold q in Hhost, Hforms. simpl in Hhost, Hforms.
  split; [done |]. split.
  { intros f Hf.
    assert (Hreset : forms q !! selector = Some (Form (defaults f) (defaults f)))
      by (by rewrite Hforms, lookup_alter_eq, Hf).
    split; [done |]. intros Hempty. by eexists. }
  split; [done |].
  rewrite (submitted_success _ _ _ _ _ _ _ Hpost). fold q.
  split; [| split].
  - by intros ->.
  - by intros callback ->.
  - by intros r ->.
Qed.

Lemma successful_submission_witness :
  let net : network := fun _ => Response 201 (Json (VObj sample_patient)) in
  let p := loaded true ∅
             {[ "form" := Form [("name", "Ann")] [("name", EmptyString)] ]} in
  let q := exec (submitted net "form" "/api/patients"
                   (Some (fun _ => call Patients)) (VObj ∅)) p in
  forms q !! "form" = Some (Form [("name", EmptyString)] [("name", EmptyString)])
  ∧ messageHost q = Some [(0, flash "success" "Saved successfully.")]
  ∧ sent q = [Get "/api/patients"].
Proof.
  intros net p q.
  destruct (successful_submission net "form" "/api/patients"
              (Some (fun _ => call Patients)) (VObj ∅) (VObj sample_patient) p
              eq_refl)
    as (_ & _ & _ & _ & _ & Hcall).
  subst q. unfold exec. rewrite (Hcall Patients eq_refl).
  by vm_compute.
Defined.

(** ** Refreshes that fail *)

Lemma refresh_failure r net error p :
  getJSON net (endpoint r) = Throw error ->
  refresh r net p = showMessage (failure_text r) "error" p.
Proof.
  intros Hget.
  destruct r; simpl in *;
    unfold refreshOverview, refreshPatients, refreshAppointments, refreshBills,
      try_catch;
    rewrite bind_run; unfold lift at 1; by rewrite Hget.
Qed.

(** C7: when the GET of a refresh routine fails, the routine does nothing
    but call the notifier once with the message of its collection and the
    kind [error]: every element found by identifier keeps its children, so
    rows and summary values stay as they were; the message host, when the
    page has one, gains exactly one child; forms, timers, listeners and the
    requests of other routines are untouched, and the routine returns
    normally. *)
Theorem failed_refresh (r : routine) (net : network) (error : js_error)
    (p : page) :
  getJSON net (endpoint r) = Throw error ->
  let q := exec (refresh r net) p in
  refresh r net p = showMessage (failure_text r) "error" p
  ∧ (refresh r net p).1 = Ok tt
  ∧ elements q = elements p
  ∧ messageHost q
    = (fun kids => kids ++ [(fresh p, flash "error" (failure_text r))])
        <$> messageHost p
  ∧ forms q = forms p
  ∧ intervals q = intervals p
  ∧ listeners q = listeners p
  ∧ inflight q = inflight p
  ∧ sent q = sent p.
Proof.
  intros Hget q. subst q. unfold exec.
  rewrite (refresh_failure _ _ _ _ Hget).
  destruct (showMessage_effect (failure_text r) "error" p)
    as (Hhost & Hels & Hforms & Hint & Hlis & Hinf & Hsent & _).
  repeat split; try done. apply showMessage_ok.
Qed.

Lemma failed_refresh_witness :
  let net : network := fun _ => NetworkFailure "Failed to fetch" in
  let p := loaded true {[ "patients-body" := [Text "stale"] ]} ∅ in
  let q := exec (refresh Patients net) p in
  elements q = elements p
  ∧ messageHost q = Some [(0, flash "error" "Unable to refresh patients.")].
Proof.
  intros net p q.
  destruct (failed_refresh Patients net (JsError TypeError "Failed to fetch") p
              eq_refl)
    as (_ & _ & Hels & Hhost & _).
  split; [exact Hels | exact Hhost].
Defined.

(** ** What a computation keeps

    For a preorder [R], [keeps R] passes through sequencing, [try]/[catch]
    and loops. *)

Section Keeps.
Context (R : relation page) `{!PreOrder R}.

Lemma keeps_ret {A} (a : A) : keeps R (mret a).
Proof. intros p. simpl. reflexivity. Qed.

Lemma keeps_lift {A} (r : result A) : keeps R (lift r).
Proof. intros p. simpl. reflexivity. Qed.

Lemma keeps_read {A} (f : page -> A) : keeps R (read f).
Proof. intros p. simpl. reflexivity. Qed.

Lemma keeps_bind {A B} (m : M A) (k : A -> M B) :
  keeps R m -> (∀ a, keeps R (k a)) -> keeps R (m ≫= k).
Proof.
  intros Hm Hk p. rewrite bind_run. specialize (Hm p).
  destruct (m p) as [[a|e] q]; simpl in *; [| done].
  etrans; [exact Hm | apply Hk].
Qed.

Lemma keeps_try_catch {A} (m : M A) (handler : js_error -> M A) :
  keeps R m -> (∀ e, keeps R (handler e)) -> keeps R (try_catch m handler).
Proof.
  intros Hm Hh p. unfold try_catch. specialize (Hm p).
  destruct (m p) as [[a|e] q]; simpl in *; [done |].
  etrans; [exact Hm | apply Hh].
Qed.

Lemma keeps_for_each {A} (f : A -> M unit) (l : list A) :
  (∀ a, keeps R (f a)) -> keeps R (for_each f l).
Proof.
  intros Hf. induction l as [|a l IH]; simpl.
  - apply keeps_ret.
  - apply keeps_bind; [apply Hf | by intros _].
Qed.

Lemma keeps_modify (f : page -> page) :
  (∀ p, R p (f p)) -> keeps R (modify f).
Proof. intros Hf p. apply Hf. Qed.
End Keeps.

(** Takes a computation of the script apart down to its primitives. *)
Ltac keeps_step :=
  lazymatch goal with
  | |- keeps ?R (mret _) => apply (keeps_ret R)
  | |- keeps ?R (ret _) => apply (keeps_ret R)
  | |- keeps ?R (lift _) => apply (keeps_lift R)
  | |- keeps ?R (read _) => apply (keeps_read R)
  | |- keeps ?R (getElementById _) => apply (keeps_read R)
  | |- keeps ?R (_ ≫= _) => apply (keeps_bind R); [| intros ?]
  | |- keeps ?R (try_catch _ _) => apply (keeps_try_catch R); [| intros ?]
  | |- keeps ?R (for_each _ _) => apply (keeps_for_each R); intros ?
  | |- keeps _ (match ?x with _ => _ end) => destruct x
  end.

(** ** Only the notifier and the clock touch the notifier's part *)

Lemma shows_view p q q' : shows p q -> view q = view q' -> shows p q'.
Proof.
  intros Hpq Hview. inversion Hpq as [? ? Hq | ? q0 ? text kind Hq0 Hq]; subst.
  - apply shows_none. by rewrite Hq.
  - eapply shows_more; [exact Hq0 |]. by rewrite <- Hview.
Qed.

Lemma showMessage_view text kind p q :
  view p = view q ->
  view (exec (showMessage text kind) p) = view (exec (showMessage text kind) q).
Proof.
  intros Hview. unfold view in Hview. injection Hview as Hc Hh Hf Ht.
  unfold exec. destruct (messageHost p) as [kids|] eqn:Hp.
  - rewrite (showMessage_present _ _ p kids Hp).
    rewrite (showMessage_present _ _ q kids) by congruence.
    unfold view. simpl. congruence.
  - rewrite (showMessage_absent _ _ p Hp).
    rewrite (showMessage_absent _ _ q) by congruence.
    unfold view. simpl. congruence.
Qed.

#[local] Instance shows_preorder : PreOrder shows.
Proof.
  split.
  - intros p. by apply shows_none.
  - intros p q s Hpq Hqs. induction Hqs as [q s Hs | q s0 s text kind _ IH Hs].
    + by eapply shows_view.
    + eapply shows_more; [by apply IH | done].
Qed.

Lemma keeps_shows_modify (f : page -> page) :
  (∀ p, view (f p) = view p) -> keeps shows (modify f).
Proof. intros Hf. apply (keeps_modify shows). intros p. by apply shows_none. Qed.

Lemma keeps_shows_showMessage text kind : keeps shows (showMessage text kind).
Proof.
  intros p. eapply shows_more; [by apply shows_none | done].
Qed.

Lemma keeps_shows_set_textContent id v : keeps shows (set_textContent id v).
Proof.
  unfold set_textContent.
  apply (keeps_bind shows); [apply (keeps_lift shows) | intros text].
  by apply keeps_shows_modify.
Qed.

Create HintDb keeps.

#[local] Hint Resolve keeps_shows_showMessage : keeps.
#[local] Hint Resolve keeps_shows_set_textContent : keeps.
#[local] Hint Extern 1 (keeps shows (set_innerHTML _ _)) =>
  apply keeps_shows_modify; done : keeps.
#[local] Hint Extern 1 (keeps shows (appendChild _ _)) =>
  apply keeps_shows_modify; done : keeps.
#[local] Hint Extern 1 (keeps shows (reset_form _)) =>
  apply keeps_shows_modify; done : keeps.
#[local] Hint Extern 1 (keeps shows (spawn _ _)) =>
  apply keeps_shows_modify; done : keeps.
#[local] Hint Extern 1 (keeps shows (call _)) =>
  apply keeps_shows_modify; done : keeps.
#[local] Hint Extern 1 (keeps shows (setInterval _ _)) =>
  apply keeps_shows_modify; done : keeps.
#[local] Hint Extern 1 (keeps shows (modify _)) =>
  apply keeps_shows_modify; done : keeps.

Ltac keeps_auto :=
  repeat first [ progress eauto with keeps | keeps_step ].

Lemma render_shows r input : keeps shows (render r input).
Proof.
  destruct r; simpl;
    unfold renderPatients, renderAppointments, renderBills, forEach;
    keeps_auto.
Qed.

Lemma refresh_shows r net : keeps shows (refresh r net).
Proof.
  destruct r; simpl;
    unfold refreshOverview, refreshPatients, refreshAppointments, refreshBills;
    keeps_auto.
  - apply (render_shows Patients).
  - apply (render_shows Appointments).
  - apply (render_shows Bills).
Qed.

Lemma submitted_shows net selector url onSuccess payload :
  (∀ callback created, onSuccess = Some callback ->
     keeps shows (callback created)) ->
  keeps shows (submitted net selector url onSuccess payload).
Proof.
  intros Hcb. unfold submitted.
  apply (keeps_try_catch shows); [| intros; eauto with keeps].
  apply (keeps_bind shows); [apply (keeps_lift shows) | intros created].
  apply (keeps_bind shows); [eauto with keeps | intros _].
  apply (keeps_bind shows); [eauto with keeps | intros _].
  destruct onSuccess as [callback|]; [by eapply Hcb | apply (keeps_ret shows)].
Qed.

Lemma resume_shows k req o : keeps shows (resume k req o).
Proof.
  destruct k as [r | selector onSuccess]; simpl.
  - apply refresh_shows.
  - destruct req as [url | url payload]; [apply (keeps_ret shows) |].
    apply submitted_shows. intros callback created Hcb.
    destruct onSuccess as [r|]; [| done].
    injection Hcb as <-. eauto with keeps.
Qed.

Lemma main_shows dataset_page : keeps shows (main dataset_page).
Proof. unfold main, wireForm. keeps_auto. Qed.

(** Every event but the passing of time leaves the notifier's part as
    some calls of the notifier made it. *)
Lemma step_shows e p : (∀ dt, e ≠ Elapses dt) -> shows p (step e p).
Proof.
  intros He. destruct e as [dt | i | selector texts | selector | i o]; simpl.
  - by destruct (He dt).
  - destruct (intervals p !! i) as [[r ms]|]; [| reflexivity].
    by apply shows_none.
  - by apply shows_none.
  - apply (keeps_for_each shows). intros l. unfold submit_listener.
    keeps_auto.
  - destruct (inflight p !! i) as [[req k]|]; [| reflexivity].
    etrans; [| apply resume_shows]. by apply shows_none.
Qed.

(** ** Messages and their timers *)

Lemma tidy_view p q : view p = view q -> tidy p -> tidy q.
Proof.
  unfold view, tidy, displayed. intros Hview.
  injection Hview as -> -> -> ->. done.
Qed.

Lemma tidy_showMessage text kind p :
  tidy p -> tidy (exec (showMessage text kind) p).
Proof.
  intros (Hshown & Hnodup & Hall). unfold exec.
  destruct (messageHost p) as [kids|] eqn:Hhost.
  - rewrite (showMessage_present _ _ _ _ Hhost).
    unfold tidy, displayed in *. rewrite Hhost in Hshown. simpl in *.
    rewrite !fmap_app. simpl. split; [by rewrite Hshown |]. split.
    + apply NoDup_app. split; [done |]. split; [| apply NoDup_singleton].
      intros id Hid Hnew. apply list_elem_of_singleton in Hnew as ->.
      apply list_elem_of_fmap in Hid as (timer & Hid & Htimer).
      rewrite Forall_forall in Hall. destruct (Hall _ Htimer) as [_ Hlt]. lia.
    + apply Forall_app. split.
      * eapply Forall_impl; [exact Hall |]. simpl. intros timer [? ?].
        split; [done | lia].
      * apply Forall_singleton. simpl. unfold display_ms. split; lia.
  - by rewrite showMessage_absent.
Qed.

Lemma tidy_shows p q : shows p q -> tidy p -> tidy q.
Proof.
  induction 1 as [p q Hview | p q q' text kind _ IH Hview]; intros Htidy.
  - by eapply tidy_view.
  - eapply tidy_view; [symmetry; exact Hview |].
    by apply tidy_showMessage, IH.
Qed.

Lemma shows_clock p q : shows p q -> clock q = clock p.
Proof.
  induction 1 as [p q Hview | p q q' text kind _ IH Hview].
  - unfold view in Hview. by injection Hview as -> _ _ _.
  - unfold view in Hview. injection Hview as -> _ _ _.
    destruct (showMessage_effect text kind q) as (_ & _ & _ & _ & _ & _ & _ & ->).
    done.
Qed.

Lemma remove_fired_filter (fired : list (N * nat)) kids :
  foldr (fun timer => remove_item timer.2) kids fired
  = filter (fun child => child.1 ∉ fired.*2) kids.
Proof.
  induction fired as [|timer fired IH]; simpl.
  - induction kids as [|child kids IHk]; [done |].
    rewrite filter_cons_True by apply not_elem_of_nil. by rewrite <- IHk.
  - rewrite IH. unfold remove_item. rewrite list_filter_filter.
    apply list_filter_iff. intros child. rewrite not_elem_of_cons. naive_solver.
Qed.

Lemma same_id_same_timer (timers : list (N * nat)) a b :
  NoDup timers.*2 -> a ∈ timers -> b ∈ timers -> a.2 = b.2 -> a = b.
Proof.
  induction timers as [|timer timers IH]; simpl; intros Hnodup Ha Hb Hid.
  - by apply elem_of_nil in Ha.
  - apply NoDup_cons in Hnodup as [Hfirst Hrest].
    apply elem_of_cons in Ha as [-> | Ha]; apply elem_of_cons in Hb as [-> | Hb].
    + done.
    + destruct Hfirst. rewrite Hid. apply list_elem_of_fmap. by exists b.
    + destruct Hfirst. rewrite <- Hid. apply list_elem_of_fmap. by exists a.
    + by apply IH.
Qed.

(** Dropping the children whose identity is in [gone] and the timers that
    are due by [t] keeps the two lists in step, when the two tests agree. *)
Lemma filter_in_step (gone : list nat) (t : N) (timers : list (N * nat)) :
  ∀ kids : list (nat * node),
  kids.*1 = timers.*2 ->
  (∀ timer, timer ∈ timers -> timer.2 ∉ gone ↔ (t < timer.1)%N) ->
  (filter (fun child => child.1 ∉ gone) kids).*1
  = (filter (fun timer => (t < timer.1)%N) timers).*2.
Proof.
  induction timers as [|timer timers IH]; intros kids Hids Hagree.
  - by destruct kids.
  - destruct kids as [|child kids]; [done |]. simpl in Hids.
    injection Hids as Hid Hids.
    assert (Hrest : (filter (fun c => c.1 ∉ gone) kids).*1
                    = (filter (fun timer => (t < timer.1)%N) timers).*2).
    { apply IH; [done |]. intros other Hother. apply Hagree. by right. }
    rewrite !filter_cons.
    destruct (decide (child.1 ∉ gone)) as [Hk|Hk];
      destruct (decide (t < timer.1)%N) as [Hs|Hs].
    + by rewrite !fmap_cons, Hid, Hrest.
    + destruct Hs. apply Hagree; [by left | by rewrite <- Hid].
    + destruct Hk. rewrite Hid. apply Hagree; [by left | done].
    + done.
Qed.

Lemma tidy_elapse dt p : tidy p -> tidy (elapse dt p).
Proof.
  intros (Hshown & Hnodup & Hall). unfold tidy, elapse, displayed in *.
  simpl. rewrite Forall_forall in Hall.
  split; [| split].
  - destruct (messageHost p) as [kids|]; simpl in *.
    + rewrite remove_fired_filter.
      apply filter_in_step; [done |].
      intros timer Htimer. split.
      * intros Hnot. destruct (decide (clock p + dt < timer.1)%N); [done |].
        destruct Hnot. apply list_elem_of_fmap. exists timer.
        split; [done |]. apply list_elem_of_filter. split; [lia | done].
      * intros Hlater Hfired.
        apply list_elem_of_fmap in Hfired as (other & Hid & Hother).
        apply list_elem_of_filter in Hother as [Hdue Hother].
        assert (timer = other) as -> by by eapply same_id_same_timer.
        lia.
    + symmetry in Hshown. apply fmap_nil_inv in Hshown. by rewrite Hshown.
  - eapply sublist_NoDup; [exact Hnodup |].
    apply fmap_sublist, sublist_filter.
  - apply Forall_forall. intros timer Htimer.
    apply list_elem_of_filter in Htimer as [Hlater Htimer].
    destruct (Hall _ Htimer) as [[_ Hdue] Hid]. unfold display_ms in *.
    split; [lia | done].
Qed.

Lemma tidy_step e p : tidy p -> tidy (step e p).
Proof.
  intros Htidy. destruct e as [dt | i | selector texts | selector | i o];
    try (eapply tidy_shows; [apply step_shows; by intros | done]).
  by apply tidy_elapse.
Qed.

Lemma tidy_run events : ∀ p, tidy p -> tidy (run events p).
Proof.
  induction events as [|e events IH]; intros p Htidy; [done |].
  apply IH. by apply tidy_step.
Qed.

Lemma tidy_loaded host els fs : tidy (loaded host els fs).
Proof.
  unfold tidy, displayed, loaded. simpl.
  split; [by destruct host |]. split; [apply NoDup_nil_2 | done].
Qed.

(** While the page is tidy, the number of messages on display is the
    number of pending timers. *)
Lemma tidy_count p : tidy p -> length (displayed p) = length (timeouts p).
Proof. intros [-> _]. by rewrite length_fmap. Qed.

(** After the display duration has passed nothing that was on display is
    left. *)
Lemma tidy_quiet dt p :
  tidy p -> (display_ms ≤ dt)%N ->
  displayed (elapse dt p) = [] ∧ timeouts (elapse dt p) = [].
Proof.
  intros Htidy Hdt.
  assert (Hnone : timeouts (elapse dt p) = []).
  { destruct Htidy as (_ & _ & Hall). unfold elapse. simpl.
    induction Hall as [|timer timers [[_ Hdue] _] _ IH]; [done |].
    rewrite filter_cons_False by lia. done. }
  split; [| done].
  destruct (tidy_elapse dt p Htidy) as [-> _]. by rewrite Hnone.
Qed.

(** ** One message from insertion to removal *)

Lemma tracked_view due id p q : view p = view q -> tracked due id p -> tracked due id q.
Proof.
  intros Hview (Htidy & Hid & Hdue & Hpending).
  split; [by eapply tidy_view |].
  unfold view in Hview. injection Hview as Hc _ Hf Ht.
  by rewrite <- Hc, <- Hf, <- Ht.
Qed.

Lemma tracked_showMessage due id text kind p :
  tracked due id p -> tracked due id (exec (showMessage text kind) p).
Proof.
  intros (Htidy & Hid & Hdue & Hpending).
  split; [by apply tidy_showMessage |]. unfold exec.
  destruct (messageHost p) as [kids|] eqn:Hhost.
  - rewrite (showMessage_present _ _ _ _ Hhost). simpl.
    split; [lia |]. split.
    + intros d Hd. apply elem_of_app in Hd as [Hd | Hd]; [by apply Hdue |].
      apply list_elem_of_singleton in Hd. injection Hd as _ Hfresh. lia.
    + destruct Hpending as [? | Hin]; [by left | right].
      apply elem_of_app. by left.
  - by rewrite showMessage_absent.
Qed.

Lemma tracked_shows due id p q : shows p q -> tracked due id p -> tracked due id q.
Proof.
  induction 1 as [p q Hview | p q q' text kind _ IH Hview]; intros Htracked.
  - by eapply tracked_view.
  - eapply tracked_view; [symmetry; exact Hview |].
    by apply tracked_showMessage, IH.
Qed.

Lemma tracked_elapse due id dt p : tracked due id p -> tracked due id (elapse dt p).
Proof.
  intros (Htidy & Hid & Hdue & Hpending).
  split; [by apply tidy_elapse |]. unfold elapse. simpl.
  split; [done |]. split.
  - intros d Hd. apply list_elem_of_filter in Hd as [_ Hd]. by apply Hdue.
  - destruct (decide (due ≤ clock p + dt)%N) as [Hpast | Hlater]; [by left |].
    right. destruct Hpending as [? | Hin]; [lia |].
    apply list_elem_of_filter. split; [simpl; lia | done].
Qed.

Lemma tracked_step due id e p : tracked due id p -> tracked due id (step e p).
Proof.
  intros Htracked. destruct e as [dt | i | selector texts | selector | i o];
    try (eapply tracked_shows; [apply step_shows; by intros | done]).
  by apply tracked_elapse.
Qed.

Lemma tracked_run due id events : ∀ p, tracked due id p -> tracked due id (run events p).
Proof.
  induction events as [|e events IH]; intros p Htracked; [done |].
  apply IH. by apply tracked_step.
Qed.

Lemma tracked_start text kind p kids :
  tidy p -> messageHost p = Some kids ->
  tracked (clock p + display_ms) (fresh p) (exec (showMessage text kind) p).
Proof.
  intros Htidy Hhost. split; [by apply tidy_showMessage |].
  destruct Htidy as (_ & _ & Hall). rewrite Forall_forall in Hall.
  unfold exec. rewrite (showMessage_present _ _ _ _ Hhost). simpl.
  split; [lia |]. split.
  - intros d Hd. apply elem_of_app in Hd as [Hd | Hd].
    + destruct (Hall _ Hd) as [_ Hlt]. simpl in Hlt. lia.
    + apply list_elem_of_singleton in Hd. by injection Hd as ->.
  - right. apply elem_of_app. right. by apply list_elem_of_singleton.
Qed.

(** A tracked message is on display exactly until its timer is due. *)
Lemma tracked_displayed due id p :
  tracked due id p -> id ∈ displayed p ↔ (clock p < due)%N.
Proof.
  intros ((Hshown & _ & Hall) & _ & Hdue & Hpending).
  rewrite Hshown. rewrite Forall_forall in Hall. split.
  - intros Hin. apply list_elem_of_fmap in Hin as ([d id'] & -> & Hin).
    simpl in *. rewrite <- (Hdue d Hin). destruct (Hall _ Hin) as [[? _] _].
    done.
  - intros Hbefore. destruct Hpending as [? | Hin]; [lia |].
    apply list_elem_of_fmap. by exists (due, id).
Qed.

Lemma clock_step e p :
  clock (step e p)
  = (clock p + match e with Elapses dt => dt | _ => 0 end)%N.
Proof.
  destruct e as [dt | i | selector texts | selector | i o]; [done | | | |];
    rewrite N.add_0_r; apply shows_clock, step_shows; by intros.
Qed.

Lemma clock_run events : ∀ p, clock (run events p) = (clock p + elapsed events)%N.
Proof.
  induction events as [|e events IH]; intros p.
  - simpl. by rewrite N.add_0_r.
  - change (run (e :: events) p) with (run events (step e p)).
    rewrite IH, clock_step. destruct e; simpl; lia.
Qed.

(** C9: the notifier does nothing on a page without a message host. On a
    page with one, in any state the event loop can reach, the inserted
    message is on display at once, stays on display while less than the
    display duration of 4000 ms has passed, and is gone as soon as that much
    has passed, whatever else happens meanwhile. Hence every page reached
    from a loaded page shows exactly the messages whose removal timers are
    pending, all of them due within the display duration, and none is left
    once the display duration has passed. *)
Theorem notifications_expire :
  (∀ text kind p,
     messageHost p = None -> showMessage text kind p = (Ok tt, p))
  ∧ (∀ text kind p events,
       tidy p ->
       is_Some (messageHost p) ->
       let shown := exec (showMessage text kind) p in
       let later := run events shown in
       messageHost shown
         = (fun kids => kids ++ [(fresh p, flash kind text)]) <$> messageHost p
       ∧ fresh p ∈ displayed shown
       ∧ ((elapsed events < display_ms)%N -> fresh p ∈ displayed later)
       ∧ ((display_ms ≤ elapsed events)%N -> fresh p ∉ displayed later))
  ∧ (∀ host els fs dataset_page events,
       let p := run events (exec (main dataset_page) (loaded host els fs)) in
       tidy p
       ∧ length (displayed p) = length (timeouts p)
       ∧ ∀ dt, (display_ms ≤ dt)%N -> displayed (step (Elapses dt) p) = []).
Proof.
  split; [apply showMessage_absent |]. split.
  - intros text kind p events Htidy [kids Hhost] shown later.
    pose proof (tracked_start text kind p kids Htidy Hhost) as Hstart.
    fold shown in Hstart.
    pose proof (tracked_run _ _ events _ Hstart) as Hlater. fold later in Hlater.
    apply tracked_displayed in Hstart, Hlater.
    assert (Hclock : clock shown = clock p)
      by apply (showMessage_effect text kind p).
    assert (Hnow : clock later = (clock p + elapsed events)%N)
      by (unfold later; by rewrite clock_run, Hclock).
    split; [apply (showMessage_effect text kind p) |].
    split; [apply Hstart; unfold display_ms; lia |].
    split.
    + intros Hshort. apply Hlater. lia.
    + intros Hlong Hin. apply Hlater in Hin. lia.
  - intros host els fs dataset_page events p.
    assert (Htidy : tidy p).
    { apply tidy_run. eapply tidy_shows; [apply main_shows |].
      apply tidy_loaded. }
    split; [done |]. split; [by apply tidy_count |].
    intros dt Hdt. by apply tidy_quiet.
Qed.

Lemma notifications_expire_witness :
  fresh (loaded true ∅ ∅)
    ∈ displayed (run [Elapses 3999; Fires 0]
                     (exec (showMessage "Saved successfully." "success")
                           (loaded true ∅ ∅)))
  ∧ fresh (loaded true ∅ ∅)
    ∉ displayed (run [Elapses 1500; Fires 0; Elapses 2500]
                     (exec (showMessage "Saved successfully." "success")
                           (loaded true ∅ ∅))).
Proof.
  split.
  - apply (proj2 (proj2 (proj1 (proj2 notifications_expire)
      "Saved successfully." "success" (loaded true ∅ ∅)
      [Elapses 3999; Fires 0] (tidy_loaded true ∅ ∅) (mk_is_Some _ _ eq_refl)))).
    by vm_compute.
  - apply (proj2 (proj2 (proj1 (proj2 notifications_expire)
      "Saved successfully." "success" (loaded true ∅ ∅)
      [Elapses 1500; Fires 0; Elapses 2500] (tidy_loaded true ∅ ∅)
      (mk_is_Some _ _ eq_refl)))).
    by vm_compute.
Defined.

(** ** The page of one routine *)

#[local] Instance within_preorder r : PreOrder (within r).
Proof.
  split.
  - intros p. repeat split; try done. exists 0. simpl. by rewrite !app_nil_r.
  - intros p q s (Hi1 & Hl1 & He1 & n1 & Hf1 & Hs1) (Hi2 & Hl2 & He2 & n2 & Hf2 & Hs2).
    split; [congruence |]. split; [congruence |]. split.
    + intros id Hid. by rewrite He2, He1.
    + exists (n1 + n2). rewrite Hf2, Hf1, Hs2, Hs1, !replicate_add, !app_assoc.
      done.
Qed.

Lemma within_elements r (f : gmap string (list node) -> gmap string (list node)) :
  (∀ els id, id ∉ targets r -> f els !! id = els !! id) ->
  keeps (within r) (modify (fun p => set_elements (f (elements p)) p)).
Proof.
  intros Hf. apply (keeps_modify (within r)). intros p.
  repeat split; try done.
  - intros id Hid. simpl. by apply Hf.
  - exists 0. simpl. by rewrite !app_nil_r.
Qed.

Lemma within_set_innerHTML r id s :
  id ∈ targets r -> keeps (within r) (set_innerHTML id s).
Proof.
  intros Hid. apply (within_elements r (fun els => <[id := set_html s]> els)).
  intros els other Hother. apply lookup_insert_ne. by intros ->.
Qed.

Lemma within_set_textContent r id v :
  id ∈ targets r -> keeps (within r) (set_textContent id v).
Proof.
  intros Hid. unfold set_textContent.
  apply (keeps_bind (within r)); [apply (keeps_lift (within r)) | intros text].
  apply (within_elements r (fun els => <[id := set_text text]> els)).
  intros els other Hother. apply lookup_insert_ne. by intros ->.
Qed.

Lemma within_appendChild r id child :
  id ∈ targets r -> keeps (within r) (appendChild id child).
Proof.
  intros Hid.
  apply (within_elements r (fun els => alter (fun kids => kids ++ [child]) id els)).
  intros els other Hother. apply lookup_alter_ne. by intros ->.
Qed.

Lemma within_showMessage r text kind : keeps (within r) (showMessage text kind).
Proof.
  intros p.
  destruct (showMessage_effect text kind p)
    as (_ & Hels & _ & Hint & Hlis & Hinf & Hsent & _).
  unfold exec in *. repeat split; try done.
  - intros id _. by rewrite Hels.
  - exists 0. simpl. by rewrite !app_nil_r.
Qed.

Lemma within_reset_form r selector : keeps (within r) (reset_form selector).
Proof.
  apply (keeps_modify (within r)). intros p. repeat split; try done.
  exists 0. simpl. by rewrite !app_nil_r.
Qed.

Lemma within_call r : keeps (within r) (call r).
Proof.
  apply (keeps_modify (within r)). intros p. repeat split; try done.
  by exists 1.
Qed.

#[local] Hint Resolve within_showMessage within_reset_form within_call : keeps.
#[local] Hint Extern 1 (keeps (within _) (set_innerHTML _ _)) =>
  apply within_set_innerHTML; set_solver : keeps.
#[local] Hint Extern 1 (keeps (within _) (set_textContent _ _)) =>
  apply within_set_textContent; set_solver : keeps.
#[local] Hint Extern 1 (keeps (within _) (appendChild _ _)) =>
  apply within_appendChild; set_solver : keeps.

Lemma refresh_within r net : keeps (within r) (refresh r net).
Proof.
  destruct r; simpl;
    unfold refreshOverview, refreshPatients, refreshAppointments, refreshBills,
      renderPatients, renderAppointments, renderBills, forEach.
  - apply (keeps_try_catch (within Overview)); [| intros; eauto with keeps].
    do 5 (apply (keeps_bind (within Overview));
          [apply (keeps_lift (within Overview)) | intros ?]).
    simpl. keeps_auto.
  - keeps_auto.
  - keeps_auto.
  - keeps_auto.
Qed.

Lemma submitted_within r net selector url payload :
  keeps (within r)
    (submitted net selector url (Some (fun _ => call r)) payload).
Proof. unfold submitted. keeps_auto. Qed.

Lemma confined_within r p q : within r p q -> confined r p -> confined r q.
Proof.
  intros (Hint & Hlis & _ & n & Hinf & Hsent) (Hi & Hl & Hf & Hs).
  unfold confined. rewrite Hint, Hlis, Hinf, Hsent.
  split; [done |]. split; [done |]. split.
  - apply Forall_app. split; [done |]. apply Forall_replicate. simpl. by split; [| left].
  - apply Forall_app. split; [done |]. by apply Forall_replicate.
Qed.

Lemma confined_submit r selector ls : ∀ p,
  Forall (fun l : string * string * option routine =>
            Some l.1.2 = create_endpoint r ∧ l.2 = Some r) ls ->
  confined r p ->
  let q := exec (for_each (submit_listener selector) ls) p in
  confined r q
  ∧ intervals q = intervals p
  ∧ listeners q = listeners p
  ∧ elements q = elements p.
Proof.
  induction ls as [|l ls IH]; intros p Hls Hp; simpl; [done |].
  inversion Hls as [|? ? [Hurl Hcb] Hrest]; subst.
  unfold exec. simpl. rewrite bind_run.
  assert (Hone : ∃ p',
    submit_listener selector l p = (Ok tt, p')
    ∧ confined r p' ∧ intervals p' = intervals p
    ∧ listeners p' = listeners p ∧ elements p' = elements p).
  { unfold submit_listener.
    destruct (String.eqb l.1.1 selector); [| by exists p].
    rewrite bind_run. unfold read.
    destruct (forms p !! selector) as [f|]; [| by exists p].
    eexists. split; [done |]. simpl.
    destruct Hp as (Hi & Hl & Hf & Hs). repeat split; try done; simpl.
    - apply Forall_app. split; [done |]. apply Forall_singleton. simpl.
      split; [done |]. right. exists selector. by rewrite Hcb.
    - apply Forall_app. split; [done |]. by apply Forall_singleton. }
  destruct Hone as (p' & -> & Hp' & Hint & Hlis & Hels).
  destruct (IH p' Hrest Hp') as (Hq & Hint' & Hlis' & Hels').
  unfold exec in *. rewrite Hint', Hlis', Hels'. done.
Qed.

(** On the page of [r] an event keeps everything confined to [r], registers
    nothing, and writes to no element but the targets of [r]. *)
Lemma confined_step r e p :
  confined r p ->
  confined r (step e p)
  ∧ intervals (step e p) = intervals p
  ∧ listeners (step e p) = listeners p
  ∧ ∀ id, id ∉ targets r -> elements (step e p) !! id = elements p !! id.
Proof.
  intros Hp. pose proof Hp as (Hi & Hl & Hf & Hs).
  destruct e as [dt | i | selector texts | selector | i o]; simpl.
  - done.
  - destruct (intervals p !! i) as [[r' ms]|] eqn:Hlook; [| done].
    rewrite Forall_forall in Hi.
    assert (r' = r) as ->.
    { apply (Hi (r', ms)). by eapply list_elem_of_lookup_2. }
    pose proof (within_call r p) as Hw.
    split; [by eapply confined_within |].
    by destruct Hw as (? & ? & ? & _).
  - done.
  - destruct (confined_submit r selector (listeners p) p Hl Hp)
      as (Hq & Hint & Hlis & Hels).
    split; [done |]. split; [done |]. split; [done |].
    intros id _. by rewrite Hels.
  - destruct (inflight p !! i) as [[req k]|] eqn:Hlook; [| done].
    assert (Hdel : confined r (set_inflight (delete i (inflight p)) p)).
    { repeat split; try done. simpl. by apply Forall_delete. }
    assert (Hw : within r (set_inflight (delete i (inflight p)) p)
                   (exec (resume k req o)
                         (set_inflight (delete i (inflight p)) p))).
    { rewrite Forall_forall in Hf.
      destruct (Hf (req, k)) as [Hreq Hk]; [by eapply list_elem_of_lookup_2 |].
      simpl in Hreq, Hk. destruct Hk as [-> | [selector ->]]; simpl.
      - apply refresh_within.
      - destruct req as [url | url payload]; [reflexivity |].
        apply submitted_within. }
    split; [by eapply confined_within |].
    by destruct Hw as (? & ? & ? & _).
Qed.

Lemma confined_run r events : ∀ p,
  confined r p ->
  confined r (run events p)
  ∧ intervals (run events p) = intervals p
  ∧ listeners (run events p) = listeners p
  ∧ ∀ id, id ∉ targets r -> elements (run events p) !! id = elements p !! id.
Proof.
  induction events as [|e events IH]; intros p Hp; [done |].
  change (run (e :: events) p) with (run events (step e p)).
  destruct (confined_step r e p Hp) as (Hq & Hint & Hlis & Hels).
  destruct (IH _ Hq) as (Hr & Hint' & Hlis' & Hels').
  split; [done |]. split; [congruence |]. split; [congruence |].
  intros id Hid. by rewrite Hels', Hels.
Qed.

Lemma page_of_dataset dataset_page :
  string_or dataset_page EmptyString = default EmptyString dataset_page.
Proof. by destruct dataset_page as [[|? ?]|]. Qed.

Lemma main_wires r p : main (Some (page_name r)) p = (Ok tt, wiring r p).
Proof.
  destruct r; unfold main, wiring, wireForm; simpl;
    unfold mbind, page_bind, bind, mret, page_ret, ret, read, modify, call,
      spawn, setInterval; simpl;
    destruct (forms p !! "form"); simpl; rewrite ?app_nil_r; by destruct p.
Qed.

Lemma main_inert dataset_page p :
  (∀ r, dataset_page ≠ Some (page_name r)) ->
  main dataset_page p = (Ok tt, p).
Proof.
  intros Hother. unfold main. rewrite page_of_dataset.
  assert (Hne : ∀ r, String.eqb (default EmptyString dataset_page) (page_name r)
                     = false).
  { intros r. apply String.eqb_neq. intros Heq.
    destruct dataset_page as [name|]; simpl in Heq.
    - apply (Hother r). by rewrite Heq.
    - by destruct r. }
  pose proof (Hne Overview) as H1. pose proof (Hne Patients) as H2.
  pose proof (Hne Appointments) as H3. pose proof (Hne Bills) as H4.
  simpl in H1, H2, H3, H4. cbv zeta. by rewrite H1, H2, H3, H4.
Qed.

Lemma confined_wiring r host els fs : confined r (wiring r (loaded host els fs)).
Proof.
  unfold confined, wiring, loaded. simpl.
  repeat split.
  - by apply Forall_singleton.
  - destruct r; simpl; [done | | |]; destruct (fs !! "form");
      try done; by apply Forall_singleton.
  - by apply Forall_singleton; split; [| left].
  - by apply Forall_singleton.
Qed.

(** C8: on the page named after a routine the dispatch starts that routine's
    first refresh and registers its timer, with a period of 5000 ms for the
    overview and 7000 ms for the record pages, and on a record page that has
    a form it binds the form to the page's endpoint; for any other value of
    [data-page], or none, it does nothing. Whatever happens afterwards on
    the page of a routine, that timer stays the only one, every request
    sent belongs to the routine, and no element but the routine's targets is
    written to; on the patients page in particular no request for the
    appointments or the bills is ever sent and their table bodies are never
    written to. *)
Theorem page_dispatch :
  (∀ r p, main (Some (page_name r)) p = (Ok tt, wiring r p))
  ∧ (period Overview = 5000%N ∧ period Patients = 7000%N
     ∧ period Appointments = 7000%N ∧ period Bills = 7000%N)
  ∧ (∀ dataset_page p,
       (∀ r, dataset_page ≠ Some (page_name r)) ->
       main dataset_page p = (Ok tt, p))
  ∧ (∀ r host els fs events,
       let q := run events (exec (main (Some (page_name r)))
                                 (loaded host els fs)) in
       intervals q = [(r, period r)]
       ∧ Forall (belongs r) (sent q)
       ∧ ∀ id, id ∉ targets r -> elements q !! id = els !! id)
  ∧ (∀ host els fs events,
       let q := run events (exec (main (Some "patients"))
                                 (loaded host els fs)) in
       (Get "/api/appointments" ∉ sent q)
       ∧ (Get "/api/bills" ∉ sent q)
       ∧ elements q !! "appointments-body" = els !! "appointments-body"
       ∧ elements q !! "billing-body" = els !! "billing-body").
Proof.
  assert (Hrun : ∀ r host els fs events,
    let q := run events (exec (main (Some (page_name r)))
                              (loaded host els fs)) in
    intervals q = [(r, period r)]
    ∧ Forall (belongs r) (sent q)
    ∧ ∀ id, id ∉ targets r -> elements q !! id = els !! id).
  { intros r host els fs events q. subst q. unfold exec.
    rewrite main_wires. simpl.
    destruct (confined_run r events _ (confined_wiring r host els fs))
      as ((_ & _ & _ & Hsent) & Hint & _ & Hels).
    split; [by rewrite Hint |]. split; [done |].
    intros id Hid. by rewrite Hels. }
  split; [apply main_wires |]. split; [done |].
  split; [apply main_inert |]. split; [exact Hrun |].
  intros host els fs events q.
  destruct (Hrun Patients host els fs events) as (_ & Hsent & Hels).
  fold q in Hsent, Hels. rewrite Forall_forall in Hsent.
  split; [| split; [| split]].
  - intros Hin. by apply Hsent in Hin.
  - intros Hin. by apply Hsent in Hin.
  - apply Hels. simpl. by intros ?%list_elem_of_singleton.
  - apply Hels. simpl. by intros ?%list_elem_of_singleton.
Qed.

Lemma page_dispatch_witness :
  main (Some "settings") (loaded true ∅ ∅) = (Ok tt, loaded true ∅ ∅)
  ∧ main None (loaded true ∅ ∅) = (Ok tt, loaded true ∅ ∅).
Proof.
  split.
  - apply (proj1 (proj2 (proj2 page_dispatch)) (Some "settings")).
    by intros [].
  - apply (proj1 (proj2 (proj2 page_dispatch)) None).
    by intros [].
Defined.

(** * Further properties of the script *)

(** ** When the helpers resolve *)

(** X1: each of the two helpers resolves exactly when [fetch] answers with
    a status in 200-299 and a body that is JSON, and then with the parsed
    body; when the transport fails, both reject with the error of
    [fetch]. *)
Theorem helpers_resolve (net : network) (url : string) (payload data : value) :
  (getJSON net url = Ok data
   ↔ ∃ status, net (Get url) = Response status (Json data) ∧ ok status = true)
  ∧ (postJSON net url payload = Ok data
     ↔ ∃ status, net (Post url payload) = Response status (Json data)
                 ∧ ok status = true)
  ∧ (∀ why, net (Get url) = NetworkFailure why ->
       getJSON net url = Throw (JsError TypeError why))
  ∧ (∀ why, net (Post url payload) = NetworkFailure why ->
       postJSON net url payload = Throw (JsError TypeError why)).
Proof.
  unfold getJSON, postJSON, fetch. split; [| split; [| split]].
  - destruct (net (Get url)) as [why | status b]; simpl.
    + split; [done | by intros (? & ? & _)].
    + destruct (ok status) eqn:Hok; simpl.
      * destruct b as [why | d]; simpl.
        -- split; [done | by intros (? & ? & _)].
        -- split.
           ++ intros [= ->]. by exists status.
           ++ by intros (? & [= _ ->] & _).
      * split; [done |]. intros (? & [= <- _] & Hok'). congruence.
  - destruct (net (Post url payload)) as [why | status b]; simpl.
    + split; [done | by intros (? & ? & _)].
    + destruct b as [why | d]; simpl.
      * split; [done | by intros (? & ? & _)].
      * destruct (ok status) eqn:Hok; simpl.
        -- split.
           ++ intros [= ->]. by exists status.
           ++ by intros (? & [= _ ->] & _).
        -- split.
           ++ destruct (get d "error") as [error|]; simpl; [| done].
              by destruct (to_string _).
           ++ intros (? & [= <- _] & Hok'). congruence.
  - by intros why ->.
  - by intros why ->.
Qed.

Lemma helpers_resolve_witness :
  getJSON (fun _ => NetworkFailure "Failed to fetch") "/api/overview"
  = Throw (JsError TypeError "Failed to fetch").
Proof.
  apply (proj1 (proj2 (proj2 (helpers_resolve
           (fun _ => NetworkFailure "Failed to fetch") "/api/overview"
           VNull VNull))) "Failed to fetch").
  reflexivity.
Defined.

(** X2: on a status that is not successful, a JSON body that is not an
    object decides the failure of [postJSON] as follows: [null] makes the
    read of [error] throw, so the failure is that [TypeError]; an array, a
    string, a number or a boolean has no [error], so the failure carries
    the generic message. *)
Theorem postJSON_body_not_object (net : network) (url : string)
    (payload data : value) (status : Z) :
  net (Post url payload) = Response status (Json data) ->
  ok status = false ->
  (data = VNull ->
   postJSON net url payload
   = Throw (JsError TypeError
              "Cannot read properties of null (reading 'error')"))
  ∧ (nullish data = false -> (∀ fields, data ≠ VObj fields) ->
     postJSON net url payload = Throw (JsError PlainError request_failed)).
Proof.
  intros Hnet Hok. unfold postJSON, fetch. rewrite Hnet. simpl. rewrite Hok.
  simpl. split.
  - by intros ->.
  - intros Hnull Hobj. destruct data as [| | b | n | s | items | fields];
      try done. by destruct (Hobj fields).
Qed.

Lemma postJSON_body_not_object_witness :
  postJSON (fun _ => Response 500 (Json (VStr "Internal Server Error")))
           "/api/bills" (VObj ∅)
  = Throw (JsError PlainError request_failed).
Proof.
  apply (proj2 (postJSON_body_not_object
           (fun _ => Response 500 (Json (VStr "Internal Server Error")))
           "/api/bills" (VObj ∅) (VStr "Internal Server Error") 500
           eq_refl eq_refl)); done.
Defined.

(** ** The payload of a form *)




(** ** How a renderer ends *)

Lemma render_is_table r :
  r ≠ Overview ->
  render r
  = render_table (body_id r) (array_name r) (empty_markup r) (cells_of r).
Proof. by destruct r. Qed.

Lemma cells_of_nullish r item :
  r ≠ Overview ->
  nullish item = true ->
  ∃ e, get item "id" = Throw e ∧ cells_of r item = Throw e.
Proof.
  intros Hr Hnull. destruct item; try done; destruct r; try done;
    by eexists.
Qed.

(** A row template that throws on an item that is neither [null] nor
    [undefined] throws the [TypeError] of a conversion. *)
Lemma cells_of_throws r item e :
  nullish item = false -> cells_of r item = Throw e -> e = no_primitive.
Proof.
  intros Hnull.
  destruct item as [| | b | n | s | items | fields]; try done;
    try (destruct r; by vm_compute).
  destruct r; [done | | |];
    unfold cells_of, patient_cells, appointment_cells, bill_cells, sub;
    rewrite !get_record, !ok_bind;
    repeat match goal with
    | |- context [to_string ?v] =>
        let E := fresh "E" in
        destruct (to_string v) eqn:E; simpl;
        [| intros [= <-]; by eapply to_string_throws]
    end; done.
Qed.

Lemma cells_of_stops r item :
  r ≠ Overview ->
  item_renders r item = false ->
  ∃ e, cells_of r item = Throw e.
Proof.
  intros Hr Hitem. destruct (cells_of r item) as [c|e] eqn:Hc; [| by exists e].
  assert (item_renders r item = true)
    by (apply cells_of_item; [done | by exists c]).
  congruence.
Qed.

Lemma append_rows_throw id (cells : value -> result (list string)) items :
  ∀ p, (for_each (fun item => c ← lift (cells item);
                              appendChild id (tr (row_markup c))) items p).1
       = Ok tt ->
  Forall (fun item => ∃ c, cells item = Ok c) items.
Proof.
  induction items as [|item rest IH]; intros p Hok; [done |].
  simpl in Hok. rewrite !bind_run in Hok. unfold lift at 1 in Hok.
  destruct (cells item) as [c|e] eqn:Hc; simpl in Hok; [| done].
  constructor; [by exists c | by eapply IH].
Qed.

Lemma render_table_returns r id name markup
    (cells : value -> result (list string)) input p old :
  elements p !! id = Some old ->
  (∀ item, (∃ c, cells item = Ok c) ↔ item_renders r item = true) ->
  (render_table id name markup cells input p).1 = Ok tt
  ↔ renders r input = true.
Proof.
  intros Hid Hcells. unfold render_table. rewrite bind_run.
  unfold getElementById, read. rewrite Hid.
  rewrite bind_run. unfold set_innerHTML at 1, modify at 1.
  rewrite bind_run. unfold lift at 1.
  destruct input as [| | b | n | s | items | fields]; simpl; try done.
  - by destruct s.
  - destruct items as [|item rest]; [done |].
    replace (negb (truthy (VNum (count (length (item :: rest))))))
      with false by (by rewrite truthy_length).
    unfold forEach. rewrite forallb_forall. split.
    + intros Hok%append_rows_throw. rewrite Forall_forall in Hok.
      intros x Hx%list_elem_of_In. by apply Hcells, Hok.
    + intros Hall. apply append_rows_ok, Forall_forall.
      intros x Hx%list_elem_of_In. by apply Hcells, Hall.
  - unfold field. by destruct (truthy (default VUndefined (fields !! "length"))).
Qed.

(** X4: a renderer whose table body is missing does nothing, whatever its
    input; one whose table body exists returns normally exactly on the
    inputs [renders] accepts, that is on anything whose [length] is not
    truthy and on arrays each item of which is neither [null] nor
    [undefined] and has, under the keys the row template reads, only
    values that can be converted to text; it throws on every other
    input. *)
Theorem render_outcome (r : routine) (input : value) (p : page) :
  r ≠ Overview ->
  (elements p !! body_id r = None -> render r input p = (Ok tt, p))
  ∧ (∀ old, elements p !! body_id r = Some old ->
       (render r input p).1 = Ok tt ↔ renders r input = true).
Proof.
  intros Hr. rewrite (render_is_table r Hr). split.
  - apply render_table_absent.
  - intros old Hid. eapply render_table_returns; [done |].
    intros item. by apply cells_of_item.
Qed.

Lemma render_outcome_witness :
  render Bills VNull (loaded true ∅ ∅) = (Ok tt, loaded true ∅ ∅)
  ∧ (render Bills VNull (loaded true {[ "billing-body" := [] ]} ∅)).1 ≠ Ok tt.
Proof.
  split.
  - by apply (proj1 (render_outcome Bills VNull (loaded true ∅ ∅) ltac:(done))).
  - intros Hok.
    by apply (proj2 (render_outcome Bills VNull
                       (loaded true {[ "billing-body" := [] ]} ∅) ltac:(done))
                    [] eq_refl) in Hok.
Defined.

(** X5: an input whose [length] is not truthy is rendered like an empty
    sequence: an object without a [length], a number, a boolean or the
    empty string gives the placeholder row, and the renderer returns
    normally. *)
Theorem render_without_length (r : routine) (input len : value) (p : page)
    (old : list node) :
  r ≠ Overview ->
  elements p !! body_id r = Some old ->
  get input "length" = Ok len ->
  truthy len = false ->
  render r input p
  = (Ok tt,
     set_elements (<[body_id r := [Markup (empty_markup r)]]> (elements p)) p).
Proof.
  intros Hr Hid Hlen Hfalsy. rewrite (render_is_table r Hr).
  unfold render_table. rewrite bind_run. unfold getElementById, read.
  rewrite Hid. rewrite bind_run. unfold set_innerHTML, modify.
  rewrite bind_run. unfold lift. rewrite Hlen, Hfalsy. simpl.
  rewrite insert_insert_eq. by destruct r.
Qed.

Lemma render_without_length_witness :
  render Patients (VObj {[ "error" := VStr "Not available" ]})
         (loaded true {[ "patients-body" := [Text "stale"] ]} ∅)
  = (Ok tt,
     set_elements
       (<["patients-body" := [Markup no_patients]]>
          (elements (loaded true {[ "patients-body" := [Text "stale"] ]} ∅)))
       (loaded true {[ "patients-body" := [Text "stale"] ]} ∅)).
Proof.
  apply (render_without_length Patients
           (VObj {[ "error" := VStr "Not available" ]}) VUndefined
           (loaded true {[ "patients-body" := [Text "stale"] ]} ∅)
           [Text "stale"]); [done | by vm_compute | by vm_compute | done].
Defined.

Lemma rows_before_throw r (records : list (gmap string value)) item rest e :
  Forall (fun record => item_renders r (VObj record) = true) records ->
  cells_of r item = Throw e ->
  rows (cells_of r) ((VObj <$> records) ++ item :: rest)
  = (fun record => Elem "tr" [] [Markup (record_markup r record)]) <$> records.
Proof.
  intros Hall He. induction Hall as [|record records Hrecord _ IH].
  - simpl. by rewrite He.
  - rewrite !fmap_cons, <- app_comm_cons. cbn [rows].
    unfold record_markup at 1. rewrite (record_cells _ _ Hrecord).
    unfold tr. by rewrite row_markup_not_empty, IH.
Qed.

Lemma append_rows_stop id (cells : value -> result (list string))
    before item rest e :
  Forall (fun x => ∃ c, cells x = Ok c) before ->
  cells item = Throw e ->
  ∀ p, (for_each (fun x => c ← lift (cells x);
                           appendChild id (tr (row_markup c)))
                 (before ++ item :: rest) p).1
       = Throw e.
Proof.
  intros Hbefore He. induction Hbefore as [|x before [c Hc] _ IH]; intros p.
  - simpl. rewrite !bind_run. unfold lift at 1. by rewrite He.
  - rewrite <- app_comm_cons. simpl. rewrite !bind_run. unfold lift at 1.
    rewrite Hc. simpl. apply IH.
Qed.

(** X6: a renderer given an array in which some records the row template
    returns on are followed by an item it throws on appends the rows of
    those records, in order, and then throws what the template throws: for
    a [null] or [undefined] item the [TypeError] of reading [id] from it,
    for any other item the [TypeError] of a conversion. The items after
    that one are not rendered. *)
Theorem render_stops_at_null (r : routine)
    (records : list (gmap string value)) (item : value) (rest : list value)
    (p : page) (old : list node) :
  r ≠ Overview ->
  elements p !! body_id r = Some old ->
  Forall (fun record => item_renders r (VObj record) = true) records ->
  item_renders r item = false ->
  ∃ e, cells_of r item = Throw e
       ∧ (nullish item = true -> get item "id" = Throw e)
       ∧ (nullish item = false -> e = no_primitive)
       ∧ render r (VArr ((VObj <$> records) ++ item :: rest)) p
         = (Throw e,
            set_elements
              (<[body_id r :=
                   (fun record =>
                      Elem "tr" [] [Markup (record_markup r record)])
                     <$> records]> (elements p)) p).
Proof.
  intros Hr Hid Hall Hitem.
  destruct (cells_of_stops r item Hr Hitem) as (e & He).
  exists e. split; [done |]. split; [| split].
  - intros Hnull.
    destruct (cells_of_nullish r item Hr Hnull) as (e' & Hget & He').
    congruence.
  - intros Hnull. by apply (cells_of_throws r item).
  - rewrite (render_is_table r Hr).
    rewrite (surjective_pairing (render_table _ _ _ _ _ _)). f_equal.
    + unfold render_table. rewrite bind_run. unfold getElementById, read.
      rewrite Hid. rewrite bind_run. unfold set_innerHTML at 1, modify at 1.
      rewrite bind_run. unfold lift at 1. simpl get. cbv iota beta.
      rewrite truthy_length by (by destruct records). simpl negb. cbv iota.
      unfold forEach. apply append_rows_stop; [| done].
      apply Forall_fmap. eapply Forall_impl; [exact Hall |].
      intros record Hrecord. eexists. by apply record_cells.
    + fold (exec (render_table (body_id r) (array_name r) (empty_markup r)
                    (cells_of r) (VArr ((VObj <$> records) ++ item :: rest))) p).
      rewrite (render_table_exec _ _ _ _ _ _ _ Hid). unfold table_content.
      simpl get. cbv iota beta.
      rewrite truthy_length by (by destruct records). simpl negb. cbv iota.
      by rewrite (rows_before_throw _ _ _ _ _ Hall He).
Qed.

Lemma render_stops_at_null_witness :
  ∃ e, render Appointments
         (VArr ((VObj <$> [sample_appointment]) ++ VNull :: [VObj ∅]))
         (loaded true {[ "appointments-body" := [] ]} ∅)
       = (Throw e,
          set_elements
            (<["appointments-body" :=
                 [Elem "tr" []
                    [Markup (record_markup Appointments sample_appointment)]]]>
               (elements (loaded true {[ "appointments-body" := [] ]} ∅)))
            (loaded true {[ "appointments-body" := [] ]} ∅)).
Proof.
  destruct (render_stops_at_null Appointments [sample_appointment] VNull
              [VObj ∅] (loaded true {[ "appointments-body" := [] ]} ∅) [])
    as (e & _ & _ & _ & Hrun);
    [done | by vm_compute | by repeat constructor | by vm_compute |].
  by exists e.
Defined.

(** ** Refreshes whose GET succeeds *)

Lemma refresh_after_get r net input p :
  r ≠ Overview ->
  getJSON net (endpoint r) = Ok input ->
  refresh r net p
  = try_catch (render r input)
      (fun _ => showMessage (failure_text r) "error") p.
Proof.
  intros Hr Hget.
  destruct r; [done | | |]; simpl in *;
    unfold refreshPatients, refreshAppointments, refreshBills, try_catch;
    rewrite bind_run; unfold lift at 1; by rewrite Hget.
Qed.

Lemma render_state r input p old :
  r ≠ Overview ->
  elements p !! body_id r = Some old ->
  (render r input p).2
  = set_elements
      (<[body_id r := table_content (empty_markup r) (cells_of r) input]>
         (elements p)) p.
Proof.
  intros Hr Hid. rewrite (render_is_table r Hr).
  by apply (render_table_exec _ _ _ _ _ _ _ Hid).
Qed.

Lemma render_returns r input p old :
  r ≠ Overview ->
  elements p !! body_id r = Some old ->
  (render r input p).1 = Ok tt ↔ renders r input = true.
Proof.
  intros Hr Hid. rewrite (render_is_table r Hr).
  eapply render_table_returns; [done |]. intros item. by apply cells_of_item.
Qed.

(** X7: when the GET of a list routine succeeds and the renderer returns
    normally, which it does exactly on the inputs [renders] accepts, the
    routine changes nothing but the children of its table
    body, which become the content of the response, and shows no message;
    on a page without that table body it changes nothing at all. *)
Theorem refresh_success (r : routine) (net : network) (input : value)
    (p : page) :
  r ≠ Overview ->
  getJSON net (endpoint r) = Ok input ->
  (elements p !! body_id r = None -> refresh r net p = (Ok tt, p))
  ∧ (∀ old, elements p !! body_id r = Some old ->
       renders r input = true ->
       refresh r net p
       = (Ok tt,
          set_elements
            (<[body_id r := table_content (empty_markup r) (cells_of r) input]>
               (elements p)) p)).
Proof.
  intros Hr Hget. rewrite (refresh_after_get _ _ _ _ Hr Hget).
  unfold try_catch. split.
  - intros Hid. rewrite (render_is_table r Hr).
    by rewrite render_table_absent.
  - intros old Hid Hrenders.
    apply (render_returns r input p old Hr Hid) in Hrenders.
    pose proof (render_state r input p old Hr Hid) as Hstate.
    destruct (render r input p) as [res q]. simpl in *. by subst.
Qed.

Lemma refresh_success_witness :
  refresh Patients
    (fun _ => Response 200 (Json (VArr [VObj sample_patient])))
    (loaded true {[ "patients-body" := [Text "stale"] ]} ∅)
  = (Ok tt,
     set_elements
       (<["patients-body" :=
            table_content no_patients patient_cells
              (VArr [VObj sample_patient])]>
          (elements (loaded true {[ "patients-body" := [Text "stale"] ]} ∅)))
       (loaded true {[ "patients-body" := [Text "stale"] ]} ∅)).
Proof.
  apply (proj2 (refresh_success Patients
           (fun _ => Response 200 (Json (VArr [VObj sample_patient])))
           (VArr [VObj sample_patient])
           (loaded true {[ "patients-body" := [Text "stale"] ]} ∅)
           ltac:(done) eq_refl) [Text "stale"]); [by vm_compute | done].
Defined.

(** X8: when the GET of a list routine succeeds but the renderer throws,
    the rows that were on display are gone all the same: the table body
    holds what the renderer wrote before it threw, which is nothing when
    the response is [null], and the routine shows its failure message
    once. *)
Theorem refresh_render_failure (r : routine) (net : network) (input : value)
    (p : page) (old : list node) :
  r ≠ Overview ->
  getJSON net (endpoint r) = Ok input ->
  elements p !! body_id r = Some old ->
  renders r input = false ->
  let written :=
    set_elements
      (<[body_id r := table_content (empty_markup r) (cells_of r) input]>
         (elements p)) p in
  let q := exec (refresh r net) p in
  refresh r net p = showMessage (failure_text r) "error" written
  ∧ elements q !! body_id r
    = Some (table_content (empty_markup r) (cells_of r) input)
  ∧ (nullish input = true -> elements q !! body_id r = Some [])
  ∧ messageHost q
    = (fun kids => kids ++ [(fresh p, flash "error" (failure_text r))])
        <$> messageHost p.
Proof.
  intros Hr Hget Hid Hrenders written q.
  assert (Hrun : refresh r net p = showMessage (failure_text r) "error" written).
  { rewrite (refresh_after_get _ _ _ _ Hr Hget). unfold try_catch.
    pose proof (render_returns r input p old Hr Hid) as Hret.
    pose proof (render_state r input p old Hr Hid) as Hstate.
    destruct (render r input p) as [[[]|e] s]; simpl in *.
    - rewrite (proj1 Hret eq_refl) in Hrenders. done.
    - by subst. }
  destruct (showMessage_effect (failure_text r) "error" written)
    as (Hhost & Hels & _).
  subst q. unfold exec in *. rewrite Hrun.
  assert (Hbody : elements (showMessage (failure_text r) "error" written).2
                    !! body_id r
                  = Some (table_content (empty_markup r) (cells_of r) input)).
  { rewrite Hels. simpl. by rewrite lookup_insert_eq. }
  split; [done |]. split; [done |]. split; [| done].
  intros Hnull. rewrite Hbody. by destruct input.
Qed.

Lemma refresh_render_failure_witness :
  let p := loaded true {[ "billing-body" := [Text "stale"] ]} ∅ in
  let q := exec (refresh Bills (fun _ => Response 200 (Json VNull))) p in
  elements q !! "billing-body" = Some []
  ∧ messageHost q
    = Some [(0, flash "error" "Unable to refresh billing records.")].
Proof.
  intros p q.
  destruct (refresh_render_failure Bills
              (fun _ => Response 200 (Json VNull)) VNull p [Text "stale"]
              ltac:(done) eq_refl ltac:(by vm_compute) eq_refl)
    as (_ & _ & Hempty & Hhost).
  split; [by apply Hempty | exact Hhost].
Defined.

(** ** The overview *)

Lemma lookup_write_total id text els other :
  write_total id text els !! other
  = if decide (id = other)
    then (fun _ => set_text text) <$> els !! other
    else els !! other.
Proof.
  unfold write_total. case_decide as Hid.
  - subst other. destruct (els !! id) as [kids|] eqn:Hlook.
    + by rewrite lookup_insert_eq.
    + by rewrite Hlook.
  - destruct (els !! id); [by rewrite lookup_insert_ne | done].
Qed.

Lemma write_total_is_Some id text els other :
  is_Some (write_total id text els !! other) ↔ is_Some (els !! other).
Proof.
  rewrite lookup_write_total. case_decide; [| done].
  by rewrite fmap_is_Some.
Qed.

Lemma write_totals_cons entry entries els :
  write_totals (entry :: entries) els
  = write_totals entries (write_total entry.1 (summary_text entry.2) els).
Proof. done. Qed.

Lemma write_totals_other entries : ∀ els id,
  id ∉ entries.*1 -> write_totals entries els !! id = els !! id.
Proof.
  induction entries as [|entry entries IH]; intros els id Hid; [done |].
  rewrite fmap_cons in Hid. apply not_elem_of_cons in Hid as [Hne Hid].
  rewrite write_totals_cons, IH by done.
  rewrite lookup_write_total. by case_decide.
Qed.

Lemma write_totals_entry entries : ∀ els id v,
  NoDup entries.*1 -> (id, v) ∈ entries ->
  write_totals entries els !! id
  = (fun _ => set_text (summary_text v)) <$> els !! id.
Proof.
  induction entries as [|entry entries IH]; intros els id v Hnodup Hin.
  - by apply elem_of_nil in Hin.
  - rewrite fmap_cons in Hnodup. apply NoDup_cons in Hnodup as [Hfirst Hrest].
    rewrite write_totals_cons.
    apply elem_of_cons in Hin as [<- | Hin].
    + rewrite write_totals_other by done. simpl.
      rewrite lookup_write_total. by case_decide.
    + rewrite (IH _ _ _ Hrest Hin). rewrite lookup_write_total.
      case_decide as Heq; [| done].
      destruct Hfirst. rewrite Heq. apply list_elem_of_fmap. by exists (id, v).
Qed.

Lemma text_content_convertible v :
  convertible v = true -> text_content_of v = Ok (summary_text v).
Proof.
  unfold summary_text, convertible, text_content_of.
  destruct v; try done; by destruct (to_string _).
Qed.

Lemma text_content_throws v :
  convertible v = false -> text_content_of v = Throw no_primitive.
Proof.
  unfold convertible. destruct (to_string v) as [text|e] eqn:Hv; [done |].
  intros _. apply to_string_throws in Hv as Heq. subst e.
  by destruct v.
Qed.

Lemma get_of_value data key :
  nullish data = false -> ∃ v, get data key = Ok v.
Proof. intros Hnull. destruct data; try done; by eexists. Qed.

Lemma get_of_nullish data key :
  nullish data = true -> ∃ e, get data key = Throw e.
Proof. intros Hnull. destruct data; try done; by eexists. Qed.

(** The loop over the entries of the map of [refreshOverview]: it gets
    through the entries whose element is missing or whose value can be
    converted, and stops at the first other one. *)
Lemma summaries_written entries : ∀ p,
  Forall (fun entry : string * value =>
            is_Some (elements p !! entry.1) -> convertible entry.2 = true)
         entries ->
  for_each
    (fun entry : string * value =>
       node ← getElementById entry.1;
       match node with
       | Some _ => set_textContent entry.1 entry.2
       | None => mret tt
       end) entries p
  = (Ok tt, set_elements (write_totals entries (elements p)) p).
Proof.
  induction entries as [|[id v] entries IH]; intros p Hall.
  - unfold write_totals. simpl. by rewrite set_elements_same.
  - apply Forall_cons in Hall as [Hentry Hall]. simpl in Hentry.
    cbn [for_each]. rewrite bind_run.
    assert (Hone :
      (node ← getElementById id;
       match node with
       | Some _ => set_textContent id v
       | None => mret tt
       end) p
      = (Ok tt, set_elements (write_total id (summary_text v) (elements p)) p)).
    { rewrite bind_run. unfold getElementById, read, write_total.
      destruct (elements p !! id) as [old|] eqn:Hid.
      - unfold set_textContent. rewrite bind_run. unfold lift.
        by rewrite text_content_convertible by (by apply Hentry).
      - simpl. by rewrite set_elements_same. }
    simpl in Hone |- *. rewrite Hone. rewrite IH.
    + done.
    + eapply Forall_impl; [exact Hall |]. intros entry Hconv Hsome.
      apply Hconv. simpl in Hsome. by apply write_total_is_Some in Hsome.
Qed.

Lemma for_each_app {A} (f : A -> M unit) l1 l2 : ∀ p,
  for_each f (l1 ++ l2) p
  = match for_each f l1 p with
    | (Ok _, q) => for_each f l2 q
    | (Throw e, q) => (Throw e, q)
    end.
Proof.
  induction l1 as [|x l1 IH]; intros p; [done |].
  rewrite <- app_comm_cons. cbn [for_each]. rewrite !bind_run.
  destruct (f x p) as [[[]|e] q]; [apply IH | done].
Qed.

Lemma write_totals_is_Some entries : ∀ els id,
  is_Some (write_totals entries els !! id) ↔ is_Some (els !! id).
Proof.
  induction entries as [|entry entries IH]; intros els id; [done |].
  by rewrite write_totals_cons, IH, write_total_is_Some.
Qed.

Lemma summaries_stop before id v after p :
  Forall (fun entry : string * value =>
            is_Some (elements p !! entry.1) -> convertible entry.2 = true)
         before ->
  is_Some (elements p !! id) ->
  convertible v = false ->
  for_each
    (fun entry : string * value =>
       node ← getElementById entry.1;
       match node with
       | Some _ => set_textContent entry.1 entry.2
       | None => mret tt
       end) (before ++ (id, v) :: after) p
  = (Throw no_primitive, set_elements (write_totals before (elements p)) p).
Proof.
  intros Hall Hid Hv.
  rewrite for_each_app, (summaries_written _ _ Hall).
  cbn [for_each]. rewrite !bind_run. unfold getElementById, read.
  apply (write_totals_is_Some before) in Hid as [old Hid].
  assert (Hq : elements (set_elements (write_totals before (elements p)) p)
                 !! id = Some old) by done.
  cbn [fst snd]. rewrite Hq.
  unfold set_textContent. rewrite bind_run. unfold lift.
  by rewrite (text_content_throws _ Hv).
Qed.

Lemma refreshOverview_loop net data p :
  getJSON net "/api/overview" = Ok data ->
  nullish data = false ->
  refreshOverview net p
  = try_catch
      (for_each
         (fun entry : string * value =>
            node ← getElementById entry.1;
            match node with
            | Some _ => set_textContent entry.1 entry.2
            | None => mret tt
            end) (summaries data))
      (fun _ => showMessage "Unable to refresh overview." "error") p.
Proof.
  intros Hget Hnull.
  destruct (get_of_value data "patients" Hnull) as [v1 H1].
  destruct (get_of_value data "appointments" Hnull) as [v2 H2].
  destruct (get_of_value data "bills" Hnull) as [v3 H3].
  destruct (get_of_value data "unpaid" Hnull) as [v4 H4].
  assert (Hsum : summaries data
                 = [("total-patients", v1); ("total-appointments", v2);
                    ("total-bills", v3); ("total-unpaid", v4)]).
  { unfold summaries, overview_entries. simpl. by rewrite H1, H2, H3, H4. }
  rewrite Hsum. unfold refreshOverview, try_catch.
  rewrite bind_run. unfold lift at 1. rewrite Hget.
  rewrite bind_run. unfold lift at 1. rewrite H1.
  rewrite bind_run. unfold lift at 1. rewrite H2.
  rewrite bind_run. unfold lift at 1. rewrite H3.
  rewrite bind_run. unfold lift at 1. by rewrite H4.
Qed.

Lemma summaries_ids data : (summaries data).*1 = targets Overview.
Proof. done. Qed.

Lemma targets_NoDup : NoDup (targets Overview).
Proof. apply (bool_decide_unpack _). by vm_compute. Qed.

(** X9: [refreshOverview] writes its summary values in the order of its
    map, and gives up at the first that cannot be written. When the
    response is [null], no element is written to and the failure message
    is shown once. When the response is anything else and the value of
    every summary element the page has can be converted to text, each of
    these elements gets the text of its value, empty when the field is
    missing or [null], no element is created or otherwise touched, and no
    message is shown. When the value of a summary element the page has
    cannot be converted, the elements before it in the map have been
    written by then and stay so, no other element is touched, and the
    failure message is shown once. *)
Theorem overview_summaries (net : network) (data : value) (p : page) :
  getJSON net "/api/overview" = Ok data ->
  let q := exec (refreshOverview net) p in
  let writable (entry : string * value) :=
    is_Some (elements p !! entry.1) -> convertible entry.2 = true in
  (nullish data = true ->
     refreshOverview net p
     = showMessage "Unable to refresh overview." "error" p)
  ∧ (nullish data = false ->
     Forall writable (summaries data) ->
     (refreshOverview net p).1 = Ok tt
     ∧ view q = view p
     ∧ (∀ id v, (id, v) ∈ summaries data ->
          elements q !! id
          = (fun _ => set_text (summary_text v)) <$> elements p !! id
          ∧ (is_Some (elements p !! id) ->
             text_content_of v = Ok (summary_text v)))
     ∧ (∀ id, id ∉ targets Overview -> elements q !! id = elements p !! id))
  ∧ (nullish data = false ->
     ∀ before id v after,
       summaries data = before ++ (id, v) :: after ->
       Forall writable before ->
       is_Some (elements p !! id) ->
       convertible v = false ->
       (refreshOverview net p).1 = Ok tt
       ∧ (∀ id' v', (id', v') ∈ before ->
            elements q !! id'
            = (fun _ => set_text (summary_text v')) <$> elements p !! id')
       ∧ (∀ id', id' ∉ before.*1 -> elements q !! id' = elements p !! id')
       ∧ messageHost q
         = (fun kids =>
              kids ++ [(fresh p, flash "error" "Unable to refresh overview.")])
             <$> messageHost p).
Proof.
  intros Hget q writable. split; [| split].
  - intros Hnull. destruct (get_of_nullish data "patients" Hnull) as [e He].
    unfold refreshOverview, try_catch.
    rewrite bind_run. unfold lift at 1. rewrite Hget.
    rewrite bind_run. unfold lift at 1. by rewrite He.
  - intros Hnull Hall. subst q. unfold exec.
    rewrite (refreshOverview_loop _ _ _ Hget Hnull). unfold try_catch.
    rewrite (summaries_written _ _ Hall).
    split; [done |]. split; [done |]. cbn [snd elements set_elements]. split.
    + intros id v Hin. split.
      * apply write_totals_entry; [| done].
        rewrite summaries_ids. apply targets_NoDup.
      * intros Hid. apply text_content_convertible.
        rewrite Forall_forall in Hall. by apply (Hall (id, v)).
    + intros id Hid. apply write_totals_other. by rewrite summaries_ids.
  - intros Hnull before id v after Hsplit Hbefore Hid Hv. subst q. unfold exec.
    rewrite (refreshOverview_loop _ _ _ Hget Hnull). unfold try_catch.
    rewrite Hsplit, (summaries_stop _ _ _ _ _ Hbefore Hid Hv).
    destruct (showMessage_effect "Unable to refresh overview." "error"
                (set_elements (write_totals before (elements p)) p))
      as (Hhost & Hels & _).
    unfold exec in Hhost, Hels.
    assert (Hnodup : NoDup before.*1).
    { pose proof targets_NoDup as Hn. rewrite <- (summaries_ids data) in Hn.
      rewrite Hsplit, fmap_app in Hn. by apply NoDup_app in Hn as [? _]. }
    split; [apply showMessage_ok |]. rewrite Hels, Hhost.
    cbn [elements set_elements]. split; [| split; [| done]].
    + intros id' v' Hin. by apply write_totals_entry.
    + intros id' Hid'. by apply write_totals_other.
Qed.

Lemma overview_summaries_witness :
  let p := loaded true {[ "total-patients" := [Text "3"];
                          "total-unpaid" := [Text "1"] ]} ∅ in
  (let net : network :=
     fun _ => Response 200
                (Json (VObj {[ "patients" := VNum (Number "12" true) ]})) in
   let q := exec (refreshOverview net) p in
   elements q !! "total-patients" = Some [Text "12"]
   ∧ elements q !! "total-unpaid" = Some []
   ∧ elements q !! "total-bills" = None)
  ∧ (let net : network :=
       fun _ => Response 200
                  (Json (VObj {[ "patients" := VNum (Number "12" true);
                                 "unpaid" := VObj {[ "toString" := VNull ]} ]})) in
     let q := exec (refreshOverview net) p in
     elements q !! "total-patients" = Some [Text "12"]
     ∧ elements q !! "total-unpaid" = Some [Text "1"]
     ∧ messageHost q = Some [(0, flash "error" "Unable to refresh overview.")]).
Proof.
  intros p. split.
  - intros net q.
    destruct (overview_summaries net
                (VObj {[ "patients" := VNum (Number "12" true) ]}) p eq_refl)
      as (_ & Hwrites & _).
    destruct (Hwrites eq_refl) as (_ & _ & Hentries & _).
    { repeat constructor; intros _; by vm_compute. }
    subst q. split; [| split].
    + rewrite (proj1 (Hentries "total-patients" (VNum (Number "12" true))
                        ltac:(by apply (list_elem_of_lookup_2 _ 0)))).
      by vm_compute.
    + rewrite (proj1 (Hentries "total-unpaid" VUndefined
                        ltac:(by apply (list_elem_of_lookup_2 _ 3)))).
      by vm_compute.
    + rewrite (proj1 (Hentries "total-bills" VUndefined
                        ltac:(by apply (list_elem_of_lookup_2 _ 2)))).
      by vm_compute.
  - intros net q.
    destruct (overview_summaries net
                (VObj {[ "patients" := VNum (Number "12" true);
                         "unpaid" := VObj {[ "toString" := VNull ]} ]}) p eq_refl)
      as (_ & _ & Hstops).
    destruct (Hstops eq_refl
                [("total-patients", VNum (Number "12" true));
                 ("total-appointments", VUndefined);
                 ("total-bills", VUndefined)]
                "total-unpaid" (VObj {[ "toString" := VNull ]}) [])
      as (_ & Hbefore & Hother & Hhost).
    { by vm_compute. }
    { repeat constructor; intros _; by vm_compute. }
    { eexists. by vm_compute. }
    { by vm_compute. }
    subst q. split; [| split].
    + rewrite (Hbefore "total-patients" (VNum (Number "12" true))
                 ltac:(by apply (list_elem_of_lookup_2 _ 0))).
      by vm_compute.
    + rewrite (Hother "total-unpaid"); [by vm_compute |].
      apply (bool_decide_unpack _). by vm_compute.
    + rewrite Hhost. by vm_compute.
Defined.

(** ** Requests are never held back *)

Lemma page_eta p :
  Page (clock p) (messageHost p) (fresh p) (elements p) (forms p) (timeouts p)
       (intervals p) (listeners p) (inflight p) (sent p) = p.
Proof. by destruct p. Qed.

Lemma step_submit_one selector url cb f p :
  listeners p = [(selector, url, cb)] ->
  forms p !! selector = Some f ->
  step (Submits selector) p
  = set_sent (sent p ++ [Post url (form_payload f)])
      (set_inflight
         (inflight p ++ [(Post url (form_payload f), AfterPost selector cb)])
         p).
Proof.
  intros Hl Hf. simpl. rewrite Hl. unfold exec. simpl.
  rewrite bind_run. unfold submit_listener. simpl.
  rewrite String.eqb_refl, bind_run. unfold read. by rewrite Hf.
Qed.

Lemma step_fire i r ms p :
  intervals p !! i = Some (r, ms) ->
  step (Fires i) p
  = set_sent (sent p ++ [Get (endpoint r)])
      (set_inflight (inflight p ++ [(Get (endpoint r), AfterGet r)]) p).
Proof. intros Hi. simpl. by rewrite Hi. Qed.

(** X11: nothing stops a form from being submitted again while an earlier
    submission is still in flight: on a page whose form has one submit
    listener, [n] submissions in a row send [n] POST requests with the
    same payload, all of them in flight at once. *)
Theorem repeated_submits (selector url : string) (cb : option routine)
    (f : form_state) (n : nat) (p : page) :
  listeners p = [(selector, url, cb)] ->
  forms p !! selector = Some f ->
  let q := run (replicate n (Submits selector)) p in
  sent q = sent p ++ replicate n (Post url (form_payload f))
  ∧ inflight q
    = inflight p
      ++ replicate n (Post url (form_payload f), AfterPost selector cb)
  ∧ forms q = forms p.
Proof.
  intros Hl Hf. revert p Hl Hf.
  induction n as [|n IH]; intros p Hl Hf q; subst q.
  - simpl. by rewrite !app_nil_r.
  - change (run (replicate (S n) (Submits selector)) p)
      with (run (replicate n (Submits selector)) (step (Submits selector) p)).
    rewrite (step_submit_one _ _ _ _ _ Hl Hf).
    destruct (IH (set_sent (sent p ++ [Post url (form_payload f)])
                    (set_inflight
                       (inflight p
                        ++ [(Post url (form_payload f),
                             AfterPost selector cb)]) p)))
      as (Hs & Hi & Hforms); [done | done |].
    rewrite Hs, Hi, Hforms. simpl. by rewrite <- !app_assoc.
Qed.

Lemma repeated_submits_witness :
  sent (run (replicate 2 (Submits "form"))
            (exec (main (Some "billing"))
                  (loaded true ∅ {[ "form" := Form [("amount", "40")] [] ]})))
  = [Get "/api/bills";
     Post "/api/bills" (form_payload (Form [("amount", "40")] []));
     Post "/api/bills" (form_payload (Form [("amount", "40")] []))].
Proof.
  destruct (repeated_submits "form" "/api/bills" (Some Bills)
              (Form [("amount", "40")] []) 2
              (exec (main (Some "billing"))
                    (loaded true ∅ {[ "form" := Form [("amount", "40")] [] ]})))
    as (Hsent & _); [by vm_compute | by vm_compute |].
  rewrite Hsent. by vm_compute.
Defined.

(** X12: a timer that fires sends a new GET whether or not earlier ones
    have been answered: after the timer of a routine has fired [n] times
    without any response, all [n] requests are in flight, and neither the
    elements, nor the forms, nor the notifier's part of the page have
    changed. *)
Theorem polls_pile_up (i : nat) (r : routine) (ms : N) (n : nat) (p : page) :
  intervals p !! i = Some (r, ms) ->
  let q := run (replicate n (Fires i)) p in
  sent q = sent p ++ replicate n (Get (endpoint r))
  ∧ inflight q = inflight p ++ replicate n (Get (endpoint r), AfterGet r)
  ∧ elements q = elements p
  ∧ forms q = forms p
  ∧ view q = view p.
Proof.
  revert p. induction n as [|n IH]; intros p Hi q; subst q.
  - simpl. by rewrite !app_nil_r.
  - change (run (replicate (S n) (Fires i)) p)
      with (run (replicate n (Fires i)) (step (Fires i) p)).
    rewrite (step_fire _ _ _ _ Hi).
    destruct (IH (set_sent (sent p ++ [Get (endpoint r)])
                    (set_inflight
                       (inflight p ++ [(Get (endpoint r), AfterGet r)]) p)))
      as (Hs & Hf & He & Hfo & Hv); [done |].
    rewrite Hs, Hf, He, Hfo, Hv. simpl. by rewrite <- !app_assoc.
Qed.

Lemma polls_pile_up_witness :
  inflight (run (replicate 3 (Fires 0))
                (exec (main (Some "index")) (loaded true ∅ ∅)))
  = replicate 4 (Get "/api/overview", AfterGet Overview).
Proof.
  destruct (polls_pile_up 0 Overview 5000 3
              (exec (main (Some "index")) (loaded true ∅ ∅)))
    as (_ & Hflight & _); [by vm_compute |].
  rewrite Hflight. by vm_compute.
Defined.

(** ** Submissions over time *)

Lemma settle_post i url payload selector cb o p :
  inflight p !! i = Some (Post url payload, AfterPost selector cb) ->
  step (Settles i o) p
  = exec (submitted (fun _ => o) selector url
            ((fun r (_ : value) => call r) <$> cb) payload)
         (set_inflight (delete i (inflight p)) p).
Proof. intros Hi. simpl. by rewrite Hi. Qed.

Lemma settle_get i req r o p :
  inflight p !! i = Some (req, AfterGet r) ->
  step (Settles i o) p
  = exec (refresh r (fun _ => o)) (set_inflight (delete i (inflight p)) p).
Proof. intros Hi. simpl. by rewrite Hi. Qed.

Lemma submitted_ok_state net selector url cb payload created p :
  postJSON net url payload = Ok created ->
  submitted net selector url ((fun r (_ : value) => call r) <$> cb) payload p
  = (Ok tt,
     match cb with
     | Some r => exec (call r)
     | None => fun q => q
     end (exec (showMessage "Saved successfully." "success")
               (set_forms (alter reset selector (forms p)) p))).
Proof.
  intros Hpost. rewrite (submitted_success _ _ _ _ _ _ _ Hpost).
  by destruct cb.
Qed.

(** X10: the payload of a submission is the content of the form when it
    was submitted: what is typed afterwards is not sent. When the POST then
    succeeds, the reset discards what was typed in the meantime; when it
    fails, what was typed stays. *)
Theorem submission_and_later_edits (selector url : string)
    (cb : option routine) (f : form_state) (texts : list (string * string))
    (o : outcome) (p : page) :
  listeners p = [(selector, url, cb)] ->
  forms p !! selector = Some f ->
  let q := run [Submits selector; Edits selector texts;
                Settles (length (inflight p)) o] p in
  (∃ more, sent q = sent p ++ Post url (form_payload f) :: more)
  ∧ (∀ created, postJSON (fun _ => o) url (form_payload f) = Ok created ->
       forms q !! selector = Some (Form (defaults f) (defaults f)))
  ∧ (∀ e, postJSON (fun _ => o) url (form_payload f) = Throw e ->
       forms q !! selector = Some (Form texts (defaults f))).
Proof.
  intros Hl Hf q. subst q.
  change (run [Submits selector; Edits selector texts;
               Settles (length (inflight p)) o] p)
    with (step (Settles (length (inflight p)) o)
            (step (Edits selector texts) (step (Submits selector) p))).
  rewrite (step_submit_one _ _ _ _ _ Hl Hf).
  set (req := Post url (form_payload f)).
  set (p2 := step (Edits selector texts) _).
  assert (Hflight : inflight p2 !! length (inflight p)
                    = Some (req, AfterPost selector cb))
    by (subst p2; simpl; apply list_lookup_middle; done).
  assert (Hforms : forms p2 !! selector = Some (Form texts (defaults f)))
    by (subst p2; simpl; by rewrite lookup_alter_eq, Hf).
  assert (Hsent : sent p2 = sent p ++ [req]) by done.
  rewrite (settle_post _ _ _ _ _ _ _ Hflight).
  set (p2' := set_inflight _ p2).
  destruct (postJSON (fun _ => o) url (form_payload f)) as [created|e] eqn:Hpost.
  - assert (Hq : exec (submitted (fun _ => o) selector url
                         ((fun r (_ : value) => call r) <$> cb)
                         (form_payload f)) p2'
                 = match cb with
                   | Some r => exec (call r)
                   | None => fun q => q
                   end (exec (showMessage "Saved successfully." "success")
                          (set_forms (alter reset selector (forms p2')) p2')))
      by (unfold exec at 1; by rewrite (submitted_ok_state _ _ _ _ _ _ _ Hpost)).
    rewrite Hq. clear Hq.
    destruct (showMessage_effect "Saved successfully." "success"
                (set_forms (alter reset selector (forms p2')) p2'))
      as (_ & _ & Hf' & _ & _ & _ & Hs' & _).
    set (shown := exec (showMessage "Saved successfully." "success") _) in *.
    assert (Hreset : forms shown !! selector
                     = Some (Form (defaults f) (defaults f))).
    { rewrite Hf'.
      change (alter reset selector (forms p2) !! selector
              = Some (Form (defaults f) (defaults f))).
      by rewrite lookup_alter_eq, Hforms. }
    assert (Hshown : sent shown = sent p ++ [req]) by (by rewrite Hs').
    split; [| split; [| done]].
    + destruct cb as [r|].
      * exists [Get (endpoint r)].
        change (sent (exec (call r) shown))
          with (sent shown ++ [Get (endpoint r)]).
        by rewrite Hshown, <- app_assoc.
      * by exists [].
    + intros ? _. destruct cb; exact Hreset.
  - assert (Hq : exec (submitted (fun _ => o) selector url
                         ((fun r (_ : value) => call r) <$> cb)
                         (form_payload f)) p2'
                 = exec (showMessage (message e) "error") p2')
      by (unfold exec; by rewrite (submitted_failure _ _ _ _ _ _ _ Hpost)).
    rewrite Hq. clear Hq.
    destruct (showMessage_effect (message e) "error" p2')
      as (_ & _ & Hf' & _ & _ & _ & Hs' & _).
    split; [| split; [done |]].
    + exists []. by rewrite Hs'.
    + intros ? _. by rewrite Hf'.
Qed.

Lemma submission_and_later_edits_witness :
  let p := exec (main (Some "patients"))
             (loaded true ∅
                {[ "form" := Form [("name", "Ann")] [("name", EmptyString)] ]}) in
  forms (run [Submits "form"; Edits "form" [("name", "Bo")];
              Settles (length (inflight p))
                      (Response 201 (Json (VObj sample_patient)))] p)
    !! "form"
  = Some (Form [("name", EmptyString)] [("name", EmptyString)]).
Proof.
  intros p.
  destruct (submission_and_later_edits "form" "/api/patients" (Some Patients)
              (Form [("name", "Ann")] [("name", EmptyString)]) [("name", "Bo")]
              (Response 201 (Json (VObj sample_patient))) p)
    as (_ & Hreset & _); [by vm_compute | by vm_compute |].
  exact (Hreset (VObj sample_patient) eq_refl).
Defined.

(** ** Responses in the order they arrive *)

Lemma getJSON_answer status input url :
  ok status = true ->
  getJSON (fun _ => Response status (Json input)) url = Ok input.
Proof. intros Hok. unfold getJSON, fetch. simpl. by rewrite Hok. Qed.

Lemma postJSON_answer status created url payload :
  ok status = true ->
  postJSON (fun _ => Response status (Json created)) url payload = Ok created.
Proof. intros Hok. unfold postJSON, fetch. simpl. by rewrite Hok. Qed.

Lemma refresh_get_fields r net input p old :
  r ≠ Overview ->
  getJSON net (endpoint r) = Ok input ->
  elements p !! body_id r = Some old ->
  elements (exec (refresh r net) p)
    = <[body_id r := table_content (empty_markup r) (cells_of r) input]>
        (elements p)
  ∧ inflight (exec (refresh r net) p) = inflight p
  ∧ forms (exec (refresh r net) p) = forms p
  ∧ sent (exec (refresh r net) p) = sent p.
Proof.
  intros Hr Hget Hid. unfold exec.
  rewrite (refresh_after_get _ _ _ _ Hr Hget). unfold try_catch.
  pose proof (render_state r input p old Hr Hid) as Hstate.
  destruct (render r input p) as [[[]|e] s]; simpl in Hstate; subst s.
  - done.
  - destruct (showMessage_effect (failure_text r) "error"
                (set_elements
                   (<[body_id r :=
                        table_content (empty_markup r) (cells_of r) input]>
                      (elements p)) p))
      as (_ & Hels & Hforms & _ & _ & Hflight & Hsent & _).
    unfold exec in *. by rewrite Hels, Hforms, Hflight, Hsent.
Qed.

Lemma refresh_ok_state r net input p old :
  r ≠ Overview ->
  getJSON net (endpoint r) = Ok input ->
  elements p !! body_id r = Some old ->
  renders r input = true ->
  refresh r net p
  = (Ok tt,
     set_elements
       (<[body_id r := table_content (empty_markup r) (cells_of r) input]>
          (elements p)) p).
Proof.
  intros Hr Hget Hid Hrenders.
  rewrite (refresh_after_get _ _ _ _ Hr Hget). unfold try_catch.
  apply (render_returns r input p old Hr Hid) in Hrenders.
  pose proof (render_state r input p old Hr Hid) as Hstate.
  destruct (render r input p) as [res q]. simpl in *. by subst.
Qed.

(** X13: the table shows the response that arrived last, not the one that
    was asked for last: with two refreshes of a list routine in flight,
    when the answer to the later request arrives first and the answer to
    the earlier request arrives after it, the table ends up with the
    content of the earlier request's answer. *)
Theorem late_response_wins (r : routine) (req1 req2 : request)
    (s1 s2 : Z) (older newer : value) (p : page) (old : list node) :
  r ≠ Overview ->
  inflight p = [(req1, AfterGet r); (req2, AfterGet r)] ->
  elements p !! body_id r = Some old ->
  ok s1 = true ->
  ok s2 = true ->
  let first := step (Settles 1 (Response s2 (Json newer))) p in
  let last := step (Settles 0 (Response s1 (Json older))) first in
  elements first !! body_id r
    = Some (table_content (empty_markup r) (cells_of r) newer)
  ∧ elements last !! body_id r
    = Some (table_content (empty_markup r) (cells_of r) older)
  ∧ inflight last = [].
Proof.
  intros Hr Hflight Hid Hok1 Hok2 first last.
  assert (H1 : inflight p !! 1 = Some (req2, AfterGet r))
    by (by rewrite Hflight).
  assert (Hfirst : first
                   = exec (refresh r (fun _ => Response s2 (Json newer)))
                          (set_inflight (delete 1 (inflight p)) p))
    by apply (settle_get _ _ _ _ _ H1).
  destruct (refresh_get_fields r (fun _ => Response s2 (Json newer)) newer
              (set_inflight (delete 1 (inflight p)) p) old Hr
              (getJSON_answer _ _ _ Hok2) Hid)
    as (Hels1 & Hfl1 & _ & _).
  rewrite <- Hfirst in Hels1, Hfl1. simpl in Hfl1. rewrite Hflight in Hfl1.
  simpl in Hfl1.
  assert (Hbody1 : elements first !! body_id r
                   = Some (table_content (empty_markup r) (cells_of r) newer))
    by (rewrite Hels1; apply lookup_insert_eq).
  assert (H0 : inflight first !! 0 = Some (req1, AfterGet r))
    by (by rewrite Hfl1).
  assert (Hlast : last
                  = exec (refresh r (fun _ => Response s1 (Json older)))
                         (set_inflight (delete 0 (inflight first)) first))
    by apply (settle_get _ _ _ _ _ H0).
  destruct (refresh_get_fields r (fun _ => Response s1 (Json older)) older
              (set_inflight (delete 0 (inflight first)) first) _ Hr
              (getJSON_answer _ _ _ Hok1) Hbody1)
    as (Hels2 & Hfl2 & _ & _).
  rewrite <- Hlast in Hels2, Hfl2. simpl in Hfl2. rewrite Hfl1 in Hfl2.
  split; [done |]. split; [| done].
  rewrite Hels2. apply lookup_insert_eq.
Qed.

Lemma late_response_wins_witness :
  let p := run [Fires 0]
             (exec (main (Some "patients"))
                   (loaded true {[ "patients-body" := [] ]} ∅)) in
  elements
    (step (Settles 0 (Response 200 (Json (VArr []))))
       (step (Settles 1 (Response 200 (Json (VArr [VObj sample_patient])))) p))
    !! "patients-body"
  = Some [Markup no_patients].
Proof.
  intros p.
  destruct (late_response_wins Patients (Get "/api/patients")
              (Get "/api/patients") 200 200 (VArr [])
              (VArr [VObj sample_patient]) p [])
    as (_ & Hlast & _); try done.
Defined.

(** ** From a submission to the refreshed table *)

(** X14: on a record page, a submission whose POST succeeds is followed by
    a GET of the page's list, and once that is answered with an input the
    renderer returns on, the form is back at its defaults, the one message
    shown is the success message, the table shows the answered list, and
    nothing is left in flight. *)
Theorem submit_then_refresh (r : routine) (selector url : string)
    (f : form_state) (s1 s2 : Z) (created input : value) (p : page)
    (old : list node) :
  r ≠ Overview ->
  listeners p = [(selector, url, Some r)] ->
  forms p !! selector = Some f ->
  inflight p = [] ->
  elements p !! body_id r = Some old ->
  ok s1 = true ->
  ok s2 = true ->
  renders r input = true ->
  let q := run [Submits selector;
                Settles 0 (Response s1 (Json created));
                Settles 0 (Response s2 (Json input))] p in
  sent q = sent p ++ [Post url (form_payload f); Get (endpoint r)]
  ∧ inflight q = []
  ∧ forms q !! selector = Some (Form (defaults f) (defaults f))
  ∧ elements q !! body_id r
    = Some (table_content (empty_markup r) (cells_of r) input)
  ∧ messageHost q
    = (fun kids => kids ++ [(fresh p, flash "success" "Saved successfully.")])
        <$> messageHost p.
Proof.
  intros Hr Hl Hf Hflight Hid Hok1 Hok2 Hrenders q. subst q.
  change (run [Submits selector; Settles 0 (Response s1 (Json created));
               Settles 0 (Response s2 (Json input))] p)
    with (step (Settles 0 (Response s2 (Json input)))
            (step (Settles 0 (Response s1 (Json created)))
               (step (Submits selector) p))).
  rewrite (step_submit_one _ _ _ _ _ Hl Hf), Hflight.
  set (post := Post url (form_payload f)).
  set (p1 := set_sent _ _).
  assert (Hp1 : inflight p1 !! 0 = Some (post, AfterPost selector (Some r)))
    by done.
  rewrite (settle_post _ _ _ _ _ _ _ Hp1).
  set (base := set_inflight (delete 0 (inflight p1)) p1).
  assert (Hq : exec (submitted (fun _ => Response s1 (Json created)) selector
                       url ((fun r (_ : value) => call r) <$> Some r)
                       (form_payload f)) base
               = exec (call r)
                   (exec (showMessage "Saved successfully." "success")
                      (set_forms (alter reset selector (forms base)) base))).
  { unfold exec at 1.
    by rewrite (submitted_ok_state _ _ _ (Some r) _ created _
                  (postJSON_answer _ _ _ _ Hok1)). }
  rewrite Hq. clear Hq.
  destruct (showMessage_effect "Saved successfully." "success"
              (set_forms (alter reset selector (forms base)) base))
    as (Hhost & Hels & Hforms & _ & _ & Hfl & Hsent & _).
  set (shown := exec (showMessage "Saved successfully." "success") _) in *.
  set (p2 := exec (call r) shown).
  assert (Hp2 : inflight p2 !! 0 = Some (Get (endpoint r), AfterGet r)).
  { change (inflight p2)
      with (inflight shown ++ [(Get (endpoint r), AfterGet r)]).
    by rewrite Hfl. }
  rewrite (settle_get _ _ _ _ _ Hp2).
  set (waiting := set_inflight (delete 0 (inflight p2)) p2).
  assert (Hbody : elements waiting !! body_id r = Some old).
  { change (elements waiting) with (elements shown). by rewrite Hels. }
  assert (Hq : exec (refresh r (fun _ => Response s2 (Json input))) waiting
               = set_elements
                   (<[body_id r :=
                        table_content (empty_markup r) (cells_of r) input]>
                      (elements waiting)) waiting).
  { unfold exec.
    by rewrite (refresh_ok_state r _ input waiting old Hr
                  (getJSON_answer _ _ _ Hok2) Hbody Hrenders). }
  rewrite Hq. clear Hq.
  split; [| split; [| split; [| split]]].
  - change (sent (set_elements _ waiting)) with (sent shown ++ [Get (endpoint r)]).
    rewrite Hsent. change (sent (set_forms _ base)) with (sent p ++ [post]).
    by rewrite <- app_assoc.
  - change (inflight (set_elements _ waiting))
      with (delete 0 (inflight shown ++ [(Get (endpoint r), AfterGet r)])).
    by rewrite Hfl.
  - change (forms (set_elements _ waiting)) with (forms shown).
    rewrite Hforms.
    change (forms (set_forms (alter reset selector (forms base)) base))
      with (alter reset selector (forms p)).
    by rewrite lookup_alter_eq, Hf.
  - apply lookup_insert_eq.
  - change (messageHost (set_elements _ waiting)) with (messageHost shown).
    by rewrite Hhost.
Qed.

Lemma submit_then_refresh_witness :
  let p := step (Settles 0 (Response 200 (Json (VArr []))))
             (exec (main (Some "patients"))
                (loaded true {[ "patients-body" := [] ]}
                   {[ "form" := Form [("name", "Ann")] [("name", EmptyString)] ]})) in
  let q := run [Submits "form";
                Settles 0 (Response 201 (Json (VObj sample_patient)));
                Settles 0 (Response 200 (Json (VArr [VObj sample_patient])))] p in
  inflight q = []
  ∧ elements q !! "patients-body"
    = Some (table_content no_patients patient_cells
              (VArr [VObj sample_patient]))
  ∧ messageHost q = Some [(0, flash "success" "Saved successfully.")].
Proof.
  intros p q.
  destruct (submit_then_refresh Patients "form" "/api/patients"
              (Form [("name", "Ann")] [("name", EmptyString)]) 201 200
              (VObj sample_patient) (VArr [VObj sample_patient]) p
              [Markup no_patients])
    as (_ & Hflight & _ & Hbody & Hhost); try done.
Defined.

(** ** What is registered when the page starts *)

(** X15: the submit listeners of a page are decided when the script starts
    and never change: a record page that has a form has exactly one, which
    posts to the page's endpoint and refreshes the page's list; the
    overview page and a page without a form have none. *)
Theorem one_listener (r : routine) (host : bool)
    (els : gmap string (list node)) (fs : gmap string form_state)
    (events : list event) :
  listeners (run events
               (exec (main (Some (page_name r))) (loaded host els fs)))
  = match create_endpoint r, fs !! "form" with
    | Some url, Some _ => [("form", url, Some r)]
    | _, _ => []
    end.
Proof.
  unfold exec. rewrite main_wires. simpl.
  destruct (confined_run r events _ (confined_wiring r host els fs))
    as (_ & _ & -> & _).
  done.
Qed.

(** X16: starting the script shows nothing and writes nothing: whatever
    the value of [data-page], the elements, the forms and the messages on
    display are the same after the dispatch as before, so a table keeps the
    rows it was served with until the first response arrives. *)
Theorem main_writes_nothing (dataset_page : option string) (p : page) :
  let q := exec (main dataset_page) p in
  elements q = elements p
  ∧ forms q = forms p
  ∧ view q = view p.
Proof.
  intros q. subst q. unfold exec.
  destruct (decide (dataset_page = Some (page_name Overview))) as [-> | H1];
    [by rewrite main_wires |].
  destruct (decide (dataset_page = Some (page_name Patients))) as [-> | H2];
    [by rewrite main_wires |].
  destruct (decide (dataset_page = Some (page_name Appointments))) as [-> | H3];
    [by rewrite main_wires |].
  destruct (decide (dataset_page = Some (page_name Bills))) as [-> | H4];
    [by rewrite main_wires |].
  rewrite main_inert; [done |]. by intros [].
Qed.

(** ** One timer per message *)

Lemma showMessage_clock_fresh text kind p kids :
  messageHost p = Some kids ->
  clock (exec (showMessage text kind) p) = clock p
  ∧ fresh (exec (showMessage text kind) p) = S (fresh p)
  ∧ messageHost (exec (showMessage text kind) p)
    = Some (kids ++ [(fresh p, flash kind text)]).
Proof.
  intros Hhost. unfold exec. by rewrite (showMessage_present _ _ _ _ Hhost).
Qed.

(** X17: every message has a timer of its own: of two messages shown some
    time apart, less than the display duration, the first is removed when
    its own 4000 ms are over, and the second is still on display then. *)
Theorem messages_expire_separately (text1 kind1 text2 kind2 : string)
    (d : N) (p : page) :
  tidy p ->
  is_Some (messageHost p) ->
  (0 < d < display_ms)%N ->
  let q := elapse (display_ms - d)
             (exec (showMessage text2 kind2)
                (elapse d (exec (showMessage text1 kind1) p))) in
  (fresh p ∉ displayed q) ∧ (S (fresh p) ∈ displayed q).
Proof.
  intros Htidy [kids Hhost] Hd q.
  pose proof (tracked_start text1 kind1 p kids Htidy Hhost) as Hfirst.
  destruct (showMessage_clock_fresh text1 kind1 p kids Hhost)
    as (Hc1 & Hf1 & Hh1).
  set (p1 := exec (showMessage text1 kind1) p) in *.
  apply (tracked_elapse _ _ d) in Hfirst.
  set (p2 := elapse d p1) in *.
  assert (Hc2 : clock p2 = (clock p + d)%N) by (subst p2; simpl; by rewrite Hc1).
  assert (Hf2 : fresh p2 = S (fresh p)) by (subst p2; simpl; by rewrite Hf1).
  assert (Hh2 : is_Some (messageHost p2)).
  { subst p2. unfold elapse. simpl. rewrite Hh1. by eexists. }
  destruct Hh2 as [kids2 Hh2].
  pose proof (tracked_start text2 kind2 p2 kids2 (proj1 Hfirst) Hh2) as Hsecond.
  apply (tracked_showMessage _ _ text2 kind2) in Hfirst.
  destruct (showMessage_clock_fresh text2 kind2 p2 kids2 Hh2) as (Hc3 & _ & _).
  set (p3 := exec (showMessage text2 kind2) p2) in *.
  apply (tracked_elapse _ _ (display_ms - d)) in Hfirst, Hsecond.
  fold q in Hfirst, Hsecond.
  assert (Hcq : clock q = (clock p + display_ms)%N).
  { subst q. simpl. rewrite Hc3, Hc2. lia. }
  apply tracked_displayed in Hfirst, Hsecond.
  rewrite Hcq in Hfirst, Hsecond. rewrite Hc2, Hf2 in Hsecond.
  split.
  - intros Hin. apply Hfirst in Hin. lia.
  - apply Hsecond. lia.
Qed.

Lemma messages_expire_separately_witness :
  let q := elapse (display_ms - 1500)
             (exec (showMessage "Unable to refresh patients." "error")
                (elapse 1500
                   (exec (showMessage "Saved successfully." "success")
                         (loaded true ∅ ∅)))) in
  (fresh (loaded true ∅ ∅) ∉ displayed q)
  ∧ (S (fresh (loaded true ∅ ∅)) ∈ displayed q).
Proof.
  apply (messages_expire_separately "Saved successfully." "success"
           "Unable to refresh patients." "error" 1500 (loaded true ∅ ∅)
           (tidy_loaded true ∅ ∅) (mk_is_Some _ _ eq_refl)).
  by vm_compute.
Defined.
